(** * power-monitor: scripts/check_power.py

    A shallow embedding of the meter-report script and the proofs of the
    properties its specification states.

    Python [str] values are sequences of Unicode code points, so they are
    modelled as [list N]; the literals of the script are written as text,
    [py "..."] for a string and [ch "."] for one character.  [None] is
    [None] of [option]; a raised exception is the [Raise] branch of
    [outcome].  What the script calls and does not define (the HTML
    parser, [requests], the clock, formatting) is a field of [Library] or
    of [World]. *)

From Stdlib Require Import ZArith NArith List Ascii String Bool.
From Stdlib Require Import Floats.SpecFloat.
From stdpp Require Import base option list gmap.

#[local] Open Scope N_scope.

(** ** Python strings *)

Module PyStr.

Abbreviation char := N.
Abbreviation str := (list N).

(** UTF-8 decoding of the bytes of a literal (well-formed input only; a
    truncated sequence is dropped). *)
Fixpoint utf8 (bs : list N) : str :=
  match bs with
  | [] => []
  | b :: t =>
      if b <? 128 then b :: utf8 t
      else if b <? 224 then
        match t with
        | b1 :: t1 => (N.land b 31 * 64 + N.land b1 63) :: utf8 t1
        | _ => []
        end
      else if b <? 240 then
        match t with
        | b1 :: b2 :: t2 =>
            (N.land b 15 * 4096 + N.land b1 63 * 64 + N.land b2 63) :: utf8 t2
        | _ => []
        end
      else
        match t with
        | b1 :: b2 :: b3 :: t3 =>
            (N.land b 7 * 262144 + N.land b1 63 * 4096
             + N.land b2 63 * 64 + N.land b3 63) :: utf8 t3
        | _ => []
        end
  end.

Definition decode (s : string) : str :=
  utf8 (map N_of_ascii (list_ascii_of_string s)).

(** A literal of the script: its code points, computed where the
    literal is written. *)
Abbreviation py s :=
  (ltac:(let v := eval vm_compute in (decode s) in exact v)) (only parsing).

(** A one-character literal, and the line feed. *)
Abbreviation ch s :=
  (ltac:(let v := eval vm_compute in (hd 0 (decode s)) in exact v))
  (only parsing).

Abbreviation LF := (10%N).

(** [str.isspace] on one code point: the characters [str.strip()] and
    [str.split()] treat as whitespace. *)
Definition isspace (c : char) : bool :=
  ((9 <=? c) && (c <=? 13)) || ((28 <=? c) && (c <=? 32))
  || (c =? 133) || (c =? 160) || (c =? 5760)
  || ((8192 <=? c) && (c <=? 8202))
  || (c =? 8232) || (c =? 8233) || (c =? 8239) || (c =? 8287)
  || (c =? 12288).

(** Stripping the characters that satisfy [p] at either end. *)
Fixpoint lstrip_with (p : char -> bool) (s : str) : str :=
  match s with
  | c :: t => if p c then lstrip_with p t else s
  | [] => []
  end.

Fixpoint rstrip_with (p : char -> bool) (s : str) : str :=
  match s with
  | [] => []
  | c :: t =>
      match rstrip_with p t with
      | [] => if p c then [] else [c]
      | t' => c :: t'
      end
  end.

(** [s.lstrip()], [s.rstrip()], [s.strip()] with no argument. *)
Definition lstrip (s : str) : str := lstrip_with isspace s.

Definition rstrip (s : str) : str := rstrip_with isspace s.

Definition strip (s : str) : str := rstrip (lstrip s).

(** [s.rstrip(chars)] for a one-character [chars]. *)
Definition rstrip_char (c : char) (s : str) : str :=
  rstrip_with (N.eqb c) s.

(** [old in s] for a one-character [old]. *)
Definition contains (c : char) (s : str) : bool :=
  existsb (N.eqb c) s.

(** [s.replace(old, new)] for a one-character [old]. *)
Definition replace (old : char) (new : str) (s : str) : str :=
  flat_map (fun c => if c =? old then new else [c]) s.

(** [s.split()] with no argument: the maximal runs of non-whitespace
    characters.  [cur] is the run being read, in reverse. *)
Fixpoint split_from (cur : str) (s : str) : list str :=
  match s with
  | [] => match cur with [] => [] | _ => [rev cur] end
  | c :: t =>
      if isspace c
      then match cur with
           | [] => split_from [] t
           | _ => rev cur :: split_from [] t
           end
      else split_from (c :: cur) t
  end.

Definition split (s : str) : list str := split_from [] s.

(** [sep.join(parts)]. *)
Fixpoint join (sep : str) (parts : list str) : str :=
  match parts with
  | [] => []
  | [p] => p
  | p :: ps => p ++ sep ++ join sep ps
  end.

(** [s.startswith(prefix)]. *)
Fixpoint startswith (s prefix : str) : bool :=
  match prefix, s with
  | [], _ => true
  | p :: ps, c :: t => (c =? p) && startswith t ps
  | _ :: _, [] => false
  end.

(** Truthiness of a string: [bool(s)]. *)
Definition truthy (s : str) : bool :=
  match s with [] => false | _ => true end.

End PyStr.
Import PyStr.

(** ** Configuration values: what [yaml.safe_load] returns *)

#[warnings="-register-all"]
Inductive value : Type :=
| VNone
| VBool (b : bool)
| VInt (z : Z)
| VFloat (f : spec_float)
| VStr (s : str)
| VList (l : list value)
| VDict (m : gmap str value).

(** Truthiness of a loaded value: [bool(v)]. *)
Definition value_truthy (v : value) : bool :=
  match v with
  | VNone => false
  | VBool b => b
  | VInt z => negb (z =? 0)%Z
  | VFloat (S754_zero _) => false
  | VFloat _ => true
  | VStr s => truthy s
  | VList l => match l with [] => false | _ => true end
  | VDict m => negb (bool_decide (m = ∅))
  end.

(** The process environment, [os.environ]; [os.getenv name] is
    [env !! name]. *)
Abbreviation environ := (gmap str str).
Abbreviation config := (gmap str value).

(** ** Constants of the script *)

Definition DEFAULT_BASE_URL : str := py "https://www.wap.ekm365.com/nat/pay.aspx".
Definition DEFAULT_MID : str := py "20710001759".
Definition DEFAULT_URL : str := DEFAULT_BASE_URL ++ py "?mid=" ++ DEFAULT_MID.
Definition SNIPPET_LIMIT : N := 2000.

(** [PLACEHOLDER_PATTERN = re.compile(r"^\$\{([A-Z0-9_]+)\}$")]. *)
Definition name_char (c : char) : bool :=
  ((ch "A" <=? c) && (c <=? ch "Z")) || ((ch "0" <=? c) && (c <=? ch "9"))
  || (c =? ch "_").

(** The longest prefix of [s] made of [p]-characters, and what follows. *)
Fixpoint span (p : char -> bool) (s : str) : str * str :=
  match s with
  | c :: t => if p c then let '(a, b) := span p t in (c :: a, b) else ([], s)
  | [] => ([], [])
  end.

(** [PLACEHOLDER_PATTERN.match(s)]: [Some] of group 1, or [None].  The
    greedy run of name characters must be followed by the closing brace;
    as in every Python pattern, the final [$] also matches just before a
    newline that ends the string. *)
Definition PLACEHOLDER_match (s : str) : option str :=
  match s with
  | dollar :: brace :: t =>
      let '(name, rest) := span name_char t in
      if (dollar =? ch "$") && (brace =? ch "{") && truthy name
         && (bool_decide (rest = py "}") || bool_decide (rest = [ch "}"; LF]))
      then Some name
      else None
  | _ => None
  end.

(** ** ValueResolver *)

Fixpoint lookup_path (current : value) (keys : list str) : value :=
  match keys with
  | [] => current
  | key :: keys' =>
      match current with
      | VDict m => lookup_path (default VNone (m !! key)) keys'
      | _ => VNone
      end
  end.

Definition lookup (cfg : config) (keys : list str) : value :=
  lookup_path (VDict cfg) keys.

Definition env_string (env : environ) (name : str) : option str :=
  match env !! name with
  | None => None
  | Some value0 =>
      let stripped := strip value0 in
      if truthy stripped then Some stripped else None
  end.

Definition resolve_string (env : environ) (v : value) : option str :=
  match v with
  | VStr value0 =>
      let stripped := strip value0 in
      if negb (truthy stripped) then None
      else match PLACEHOLDER_match stripped with
           | Some group1 => env_string env group1
           | None => Some stripped
           end
  | _ => None
  end.

Definition config_string (env : environ) (cfg : config) (keys : list str)
  : option str :=
  resolve_string env (lookup cfg keys).

Fixpoint first_non_none (values : list (option str)) : option str :=
  match values with
  | [] => None
  | Some v :: rest => if truthy v then Some v else first_non_none rest
  | None :: rest => first_non_none rest
  end.

(** [if o: yes(o) else: no] for an optional string [o]: the branch taken
    by Python's truth test, which [None] and the empty string fail. *)
Definition if_truthy {A} (o : option str) (yes : str -> A) (no : A) : A :=
  match o with
  | Some v => if truthy v then yes v else no
  | None => no
  end.

(** [o is not None]. *)
Definition is_not_None {A} (o : option A) : bool :=
  match o with Some _ => true | None => false end.

(** [a or b]. *)
Definition py_or (a b : option str) : option str := if_truthy a Some b.

(** ** UrlResolver *)

Definition url_from_mid (mid : str) (base_url : option str) : str :=
  let base := rstrip_char (ch "?") (if_truthy base_url id DEFAULT_BASE_URL) in
  let separator := if contains (ch "?") base then py "&" else py "?" in
  base ++ separator ++ py "mid=" ++ mid.

Definition resolve_url (env : environ) (cli_url : option str) (cfg : config)
  : str :=
  if_truthy cli_url id (
  let env_url := env_string env (py "POWER_MONITOR_URL") in
  if_truthy env_url id (
  let config_url :=
    first_non_none [ config_string env cfg [py "url"];
                     config_string env cfg [py "meter"; py "url"] ] in
  if_truthy config_url id (
  let mid :=
    py_or (env_string env (py "POWER_MONITOR_MID"))
          (first_non_none [ config_string env cfg [py "mid"];
                            config_string env cfg [py "meter"; py "mid"] ]) in
  let base :=
    py_or (env_string env (py "POWER_MONITOR_BASE_URL"))
          (first_non_none [ config_string env cfg [py "base_url"];
                            config_string env cfg [py "meter"; py "base_url"] ]) in
  if_truthy mid (fun mid' => url_from_mid mid' base)
  DEFAULT_URL))).

(** ** Exceptions *)

(** The classes the script tells apart: its own [PowerMonitorError],
    [ValueError] with its subclasses (caught by [parse_numeric]), any
    other subclass of [Exception], and what derives from [BaseException]
    only ([KeyboardInterrupt] and the like), which [except Exception]
    lets through. *)
Inductive exc_class : Type :=
| PowerMonitorError
| ValueError
| OtherException (name : str)
| NonException (name : str).

Record exception : Type := { exc_type : exc_class; exc_str : str }.

Definition is_Exception (e : exception) : bool :=
  match exc_type e with NonException _ => false | _ => true end.

Definition is_ValueError (e : exception) : bool :=
  match exc_type e with ValueError => true | _ => false end.

Definition is_PowerMonitorError (e : exception) : bool :=
  match exc_type e with PowerMonitorError => true | _ => false end.

Inductive outcome (A : Type) : Type :=
| Return (a : A)
| Raise (e : exception).
Arguments Return {A} a.
Arguments Raise {A} e.

#[global] Instance outcome_ret : MRet outcome := @Return.

#[global] Instance outcome_bind : MBind outcome := fun A B k m =>
  match m with
  | Return a => k a
  | Raise e => Raise e
  end.

(** ** Floating-point numbers: IEEE 754 binary64 *)

Abbreviation float := spec_float.
Definition prec : Z := 53.
Definition emax : Z := 1024.

(** The binary64 number nearest to [m * 10^e] (ties to even), with the
    sign [neg]; an overflow gives an infinity. *)
Definition decimal_to_float (neg : bool) (m : N) (e : Z) : float :=
  match m with
  | N0 => S754_zero neg
  | Npos p =>
      SFdiv prec emax
        (S754_finite neg (p * Z.to_pos (10 ^ Z.max e 0)) 0)
        (S754_finite false (Z.to_pos (10 ^ Z.max (- e) 0)) 0)
  end.

(** ** Library functions

    What the script calls and does not define: the Unicode database
    behind [float], [repr], [textwrap.shorten], [datetime] formatting,
    float formatting, [json.dumps] and the HTML parser. *)

Record timezone : Type := { utcoffset : Z (* seconds east of UTC *) }.
Definition timezone_utc : timezone := {| utcoffset := 0 |}.
Definition timedelta_hours (h : Z) : Z := (h * 3600)%Z.

(** An aware [datetime]: an instant (microseconds since the epoch) and
    the zone it is expressed in. *)
Record datetime : Type := { instant : Z; tzinfo : timezone }.

(** An element of the parsed page, in document order: its tag name and
    [get_text(strip=True)]. *)
Record element : Type := { tag_name : str; get_text : str }.

(** A parsed page: the elements in document order, and
    [soup.stripped_strings]. *)
Record soup : Type := { elements : list element; stripped_strings : list str }.

(** JSON payloads handed to [json.dumps]. *)
#[warnings="-register-all"]
Inductive json : Type :=
| JNull
| JBool (b : bool)
| JNumber (f : float)
| JString (s : str)
| JObject (fields : list (str * json)).

Record Library : Type := {
  (** [Py_UNICODE_TODECIMAL] on a non-ASCII code point *)
  unicode_decimal : char -> option N;
  (** [repr(s)] *)
  repr : str -> str;
  (** [textwrap.shorten(text, width=, placeholder=)] *)
  shorten : str -> N -> str -> str;
  (** [BeautifulSoup(html, "html.parser")] *)
  BeautifulSoup : str -> outcome soup;
  (** [d.strftime(fmt)] and [d.isoformat()] *)
  strftime : datetime -> str -> str;
  isoformat : datetime -> str;
  (** [f"{value:.2f}"] *)
  format_2f : float -> str;
  (** [json.dumps(payload, ensure_ascii=False, indent=2)] *)
  json_dumps : json -> str
}.

(** ** [float(s)] for a string [s] *)

Section Float.

Context (lib : Library).

Definition is_digit (c : char) : bool := (ch "0" <=? c) && (c <=? ch "9").

(** The characters [float] strips at both ends once the string is
    transcoded. *)
Definition Py_ISSPACE (c : char) : bool :=
  ((9 <=? c) && (c <=? 13)) || (c =? ch " ").

(** Transcoding to ASCII: a non-ASCII space becomes a space, a
    non-ASCII decimal digit its ASCII digit, anything else a question
    mark. *)
Definition to_ascii (c : char) : char :=
  if c <? 127 then c
  else if isspace c then ch " "
  else match unicode_decimal lib c with
       | Some d => if d <? 10 then ch "0" + d else ch "?"
       | None => ch "?"
       end.

(** An underscore is accepted only between two digits; the result is
    the string without its underscores.  [prev] is the character
    before [s]. *)
Fixpoint strip_underscores (prev : char) (s : str) : option str :=
  match s with
  | [] => if prev =? ch "_" then None else Some []
  | c :: t =>
      if c =? ch "_"
      then if is_digit prev then strip_underscores c t else None
      else if (prev =? ch "_") && negb (is_digit c) then None
      else cons c <$> strip_underscores c t
  end.

Definition lower (c : char) : char :=
  if (ch "A" <=? c) && (c <=? ch "Z") then c + 32 else c.

Definition digits_value (ds : str) : N :=
  fold_left (fun acc d => 10 * acc + (d - ch "0")) ds 0.

(** An optional sign: whether it is a minus, and the rest. *)
Definition parse_sign (s : str) : bool * str :=
  match s with
  | c :: t =>
      if c =? ch "-" then (true, t)
      else if c =? ch "+" then (false, t)
      else (false, s)
  | [] => (false, s)
  end.

(** [exponent ::= ("e" | "E") [sign] digitpart], up to the end of the
    string; an empty string is the exponent 0. *)
Definition parse_exponent (s : str) : option Z :=
  match s with
  | [] => Some 0%Z
  | c :: t =>
      if lower c =? ch "e" then
        let '(neg, t') := parse_sign t in
        match span is_digit t' with
        | ((_ :: _) as ds, []) =>
            let e := Z.of_N (digits_value ds) in
            Some (if neg then (- e)%Z else e)
        | _ => None
        end
      else None
  end.

(** [floatnumber ::= number [exponent]] with
    [number ::= [digitpart] "." digitpart | digitpart ["."]]. *)
Definition parse_floatnumber (neg : bool) (s : str) : option float :=
  let '(int_part, r1) := span is_digit s in
  let '(frac_part, r2) :=
    match r1 with
    | c :: t => if c =? ch "." then span is_digit t else ([], r1)
    | [] => ([], r1)
    end in
  match int_part ++ frac_part with
  | [] => None
  | ds =>
      e ← parse_exponent r2;
      Some (decimal_to_float neg (digits_value ds)
                             (e - Z.of_nat (length frac_part)))
  end.

(** [floatvalue ::= [sign] (floatnumber | infinity | nan)], case
    ignored. *)
Definition parse_floatvalue (s : str) : option float :=
  let '(neg, body) := parse_sign s in
  let word := map lower body in
  if bool_decide (word = py "inf") || bool_decide (word = py "infinity")
  then Some (S754_infinity neg)
  else if bool_decide (word = py "nan") then Some S754_nan
  else parse_floatnumber neg body.

Definition could_not_convert (s : str) : exception :=
  {| exc_type := ValueError;
     exc_str := py "could not convert string to float: " ++ repr lib s |}.

Definition py_float (s : str) : outcome float :=
  let ascii := map to_ascii s in
  let trimmed := rstrip_with Py_ISSPACE (lstrip_with Py_ISSPACE ascii) in
  match strip_underscores 0 trimmed ≫= parse_floatvalue with
  | Some f => Return f
  | None => Raise (could_not_convert s)
  end.

End Float.

(** ** The world a run executes in *)

(** An HTTP response: [response.raise_for_status()] and [response.text]. *)
Record response : Type := { raise_for_status : outcome unit; text : str }.

Record World : Type := {
  (** [os.environ] *)
  os_environ : gmap str str;
  (** [Path(p).is_file()] *)
  is_file : str -> bool;
  (** [yaml.safe_load(Path(p).read_text(encoding="utf-8"))] *)
  safe_load_file : str -> outcome value;
  (** [requests.get(url, headers=, timeout=)] *)
  requests_get : str -> list (str * str) -> Z -> outcome response;
  (** the instant [datetime.now] reads *)
  clock : Z;
  (** [print(text)] on standard output *)
  print_stdout : str -> outcome unit;
  (** [Path(p).parent.mkdir(parents=True, exist_ok=True)] *)
  mkdir_parents : str -> outcome unit;
  (** [Path(p).write_text(text, encoding="utf-8")] *)
  write_text : str -> str -> outcome unit
}.

Definition datetime_now (w : World) (tz : timezone) : datetime :=
  {| instant := clock w; tzinfo := tz |}.

(** ** Data model *)

Record PowerInfo : Type := {
  meter_name : option str;
  meter_id : option str;
  remaining_kwh : option float;
  remaining_amount_cny : option float;
  price_per_kwh : option float
}.

(** [PowerInfo()]: every field at its default. *)
Definition PowerInfo_default : PowerInfo :=
  {| meter_name := None; meter_id := None; remaining_kwh := None;
     remaining_amount_cny := None; price_per_kwh := None |}.

Record PowerReport : Type := {
  url : str;
  fetched_at : datetime;
  info : PowerInfo;
  snippet : str;
  success : bool;
  error : option str
}.

(** ** Config loading *)

Definition load_config (w : World) (path : option str) : outcome config :=
  let candidate :=
    if_truthy path id
      (if_truthy (os_environ w !! py "POWER_MONITOR_CONFIG") id
         (py "config.yaml")) in
  if negb (is_file w candidate) then Return ∅
  else
    loaded ← safe_load_file w candidate;
    let data := if value_truthy loaded then loaded else VDict ∅ in
    match data with
    | VDict m => Return m
    | _ => Raise {| exc_type := PowerMonitorError;
                    exc_str := py "config.yaml wrong" |}
    end.

(** ** PageFetcher *)

Definition fetch_page (w : World) (url0 : str) : outcome str :=
  let headers :=
    [ (py "User-Agent",
       py "Mozilla/5.0 (X11; Linux x86_64) "
       ++ py "AppleWebKit/537.36 (KHTML, like Gecko) "
       ++ py "Chrome/122.0.0.0 Safari/537.36") ] in
  resp ← requests_get w url0 headers 30%Z;
  _ ← raise_for_status resp;
  Return (text resp).

(** ** FieldExtractor *)

Definition normalize_label (text0 : str) : str :=
  replace (ch ":") (py "")
          (join (py "") (split (replace (ch "：") (py ":") text0))).

Section Extraction.

Context (lib : Library).

Definition parse_numeric (value0 : option str) : outcome (option float) :=
  match value0 with
  | None => Return None
  | Some v =>
      match py_float lib (replace (ch ",") (py "") v) with
      | Return f => Return (Some f)
      | Raise e => if is_ValueError e then Return None else Raise e
      end
  end.

(** [soup.find_all(name)]: the tags of that name in document order,
    each with the elements that come after it. *)
Fixpoint find_all (name : str) (els : list element)
  : list (element * list element) :=
  match els with
  | [] => []
  | e :: rest =>
      if bool_decide (tag_name e = name)
      then (e, rest) :: find_all name rest
      else find_all name rest
  end.

(** [tag.find_next(name)] over the elements after [tag]. *)
Fixpoint find_next (name : str) (following : list element) : option element :=
  match following with
  | [] => None
  | e :: rest =>
      if bool_decide (tag_name e = name) then Some e else find_next name rest
  end.

(** The loop of [find_value] over the spans. *)
Fixpoint find_value_loop (target : str) (spans : list (element * list element))
  : option str :=
  match spans with
  | [] => None
  | (span0, following) :: more =>
      let span_text := get_text span0 in
      if negb (truthy span_text) then find_value_loop target more
      else if startswith (normalize_label span_text) target then
        match find_next (py "label") following with
        | Some label => Some (get_text label)
        | None => find_value_loop target more
        end
      else find_value_loop target more
  end.

Definition find_value (sp : soup) (keyword : str) : option str :=
  let target := normalize_label keyword in
  find_value_loop target (find_all (py "span") (elements sp)).

Definition extract_power_info (html : str) : outcome (PowerInfo * str) :=
  sp ← BeautifulSoup lib html;
  let meter_name0 := find_value sp (py "表名称") in
  let meter_id0 := find_value sp (py "表号") in
  remaining_kwh0 ← parse_numeric (find_value sp (py "剩余电量"));
  remaining_amount ← parse_numeric (find_value sp (py "剩余金额"));
  price_per_kwh0 ← parse_numeric (find_value sp (py "综合费用"));
  let snippet0 :=
    shorten lib (join (py " ") (map strip (stripped_strings sp)))
            SNIPPET_LIMIT (py "...") in
  let info0 :=
    {| meter_name := meter_name0; meter_id := meter_id0;
       remaining_kwh := remaining_kwh0;
       remaining_amount_cny := remaining_amount;
       price_per_kwh := price_per_kwh0 |} in
  Return (info0, snippet0).

(** ** ReportBuilder *)

Definition MISSING_FIELD : str := py "页面中缺少“剩余电量”字段".

Definition collect_report (w : World) (url0 : str) : outcome PowerReport :=
  html ← fetch_page w url0;
  '(info0, snippet0) ← extract_power_info html;
  let success0 := is_not_None (remaining_kwh info0) in
  let error0 := if success0 then None else Some MISSING_FIELD in
  Return {| url := url0;
            fetched_at :=
              datetime_now w {| utcoffset := timedelta_hours 8 |};
            info := info0;
            snippet := snippet0;
            success := success0;
            error := error0 |}.

End Extraction.

(** ** Renderer *)

Section Driver.

Context (lib : Library).

Definition format_value (v : option float) : str :=
  match v with
  | None => py "未知"
  | Some f => format_2f lib f
  end.

Definition render_markdown (report : PowerReport) : str :=
  let fetched := strftime lib (fetched_at report) (py "%Y-%m-%d %H:%M:%S %Z") in
  let info0 := info report in
  let lines :=
    [ py "# 宿舍电费情况";
      py "- 时间: " ++ fetched;
      py "- 剩余电量(kWh): " ++ format_value (remaining_kwh info0);
      py "- 剩余金额(元): " ++ format_value (remaining_amount_cny info0) ] in
  let lines :=
    if_truthy (error report) (fun e => lines ++ [py "- 错误: " ++ e]) lines in
  let lines := lines ++ [py ""] in
  join [LF] lines.

Definition json_of_str (o : option str) : json :=
  match o with Some s => JString s | None => JNull end.

Definition json_of_float (o : option float) : json :=
  match o with Some f => JNumber f | None => JNull end.

(** [asdict(info)]. *)
Definition asdict (i : PowerInfo) : json :=
  JObject [ (py "meter_name", json_of_str (meter_name i));
            (py "meter_id", json_of_str (meter_id i));
            (py "remaining_kwh", json_of_float (remaining_kwh i));
            (py "remaining_amount_cny", json_of_float (remaining_amount_cny i));
            (py "price_per_kwh", json_of_float (price_per_kwh i)) ].

Definition render_json (report : PowerReport) : str :=
  let payload :=
    JObject [ (py "url", JString (url report));
              (py "fetched_at", JString (isoformat lib (fetched_at report)));
              (py "success", JBool (success report));
              (py "error", json_of_str (error report));
              (py "info", asdict (info report));
              (py "snippet", JString (snippet report)) ] in
  json_dumps lib payload.

(** ** Output *)

(** What a run does to the outside: text printed on standard output or
    on the error stream, the parent directories of a path made, a file
    written, and the traceback the interpreter prints for an exception
    nobody caught. *)
Inductive event : Type :=
| Stdout (s : str)
| Stderr (s : str)
| MakeParents (path : str)
| WriteFile (path : str) (content : str)
| Traceback (e : exception).

(** [write_output]: what it did, then how it ended.  Printing, making
    the directories and writing the file can each raise; what was done
    before stays done. *)
Definition write_output (w : World) (text0 : str) (destination : option str)
  : list event * outcome unit :=
  if_truthy destination
    (fun path =>
       match mkdir_parents w path with
       | Raise exc => ([], Raise exc)
       | Return _ =>
           match write_text w path text0 with
           | Raise exc => ([MakeParents path], Raise exc)
           | Return _ => ([MakeParents path; WriteFile path text0], Return tt)
           end
       end)
    (match print_stdout w text0 with
     | Raise exc => ([], Raise exc)
     | Return _ => ([Stdout (text0 ++ [LF])], Return tt)
     end).

(** ** CLI driver *)

Inductive output_format : Type := markdown | json_format.

(** The namespace [parse_args] returns. *)
Record Args : Type := {
  arg_url : option str;
  arg_config : option str;
  arg_format : output_format;
  arg_output : option str
}.

(** The [try] statement of [main]: the report of the run. *)
Definition report_or_failure (w : World) (url0 : str) : outcome PowerReport :=
  match collect_report lib w url0 with
  | Return report => Return report
  | Raise exc =>
      if is_Exception exc then
        Return {| url := url0;
                  fetched_at := datetime_now w timezone_utc;
                  info := PowerInfo_default;
                  snippet := py "";
                  success := false;
                  error := Some (exc_str exc) |}
      else Raise exc
  end.

Definition render (fmt : output_format) (report : PowerReport) : str :=
  match fmt with
  | json_format => render_json report
  | markdown => render_markdown report
  end.

(** [main]: the events of the run, then how it ends; [main_report] is
    the value of its variable [report], when the run gets that far. *)
Definition main_report (w : World) (args : Args) : outcome PowerReport :=
  cfg ← load_config w (arg_config args);
  let url0 := resolve_url (os_environ w) (arg_url args) cfg in
  report_or_failure w url0.

Definition main (w : World) (args : Args) : list event * outcome unit :=
  match main_report w args with
  | Raise exc => ([], Raise exc)
  | Return report =>
      let output := render (arg_format args) report in
      match write_output w output (arg_output args) with
      | (written, Raise exc) => (written, Raise exc)
      | (written, Return _) =>
          if negb (success report) then
            (written,
             Raise {| exc_type := PowerMonitorError;
                      exc_str := if_truthy (error report) id
                                   (py "Power monitor failed") |})
          else (written, Return tt)
      end
  end.

(** The process: its events in order and the exception that ended it,
    if one did. *)
Record process : Type := { events : list event; uncaught : option exception }.

(** The [if __name__ == "__main__"] block. *)
Definition script (w : World) (args : Args) : process :=
  match main w args with
  | (evs, Return _) => {| events := evs; uncaught := None |}
  | (evs, Raise exc) =>
      if is_PowerMonitorError exc then
        {| events := evs ++ [Stderr (py "Error: " ++ exc_str exc ++ [LF]);
                             Traceback exc];
           uncaught := Some exc |}
      else {| events := evs ++ [Traceback exc]; uncaught := Some exc |}
  end.

(** The exit status is zero unless an exception ended the process. *)
Definition exit_nonzero (p : process) : bool := is_not_None (uncaught p).

End Driver.

(** * The statements of the specification

    Definitions that follow the words of the specification, to be
    compared with the code above. *)

(** The first value of a sequence that is present (not [None]). *)
Fixpoint first_present (values : list (option str)) : option str :=
  match values with
  | [] => None
  | Some v :: _ => Some v
  | None :: rest => first_present rest
  end.

(** [s'] is [s] without its trailing occurrences of [c]. *)
Definition strips_trailing (c : char) (s s' : str) : Prop :=
  (exists n, s = s' ++ repeat c n) /\ last s' <> Some c.

(** [result] is [base], stripped of its trailing question marks, joined
    to [mid=<mid>] with an ampersand when the stripped base has a
    question mark and with a question mark otherwise. *)
Definition composed_url (mid base result : str) : Prop :=
  exists base',
    strips_trailing (ch "?") base base'
    /\ (ch "?" ∈ base' -> result = base' ++ py "&mid=" ++ mid)
    /\ (ch "?" ∉ base' -> result = base' ++ py "?mid=" ++ mid).

(** The composition for [mid] as the specification words it: the default
    base stands in for a base that is absent. *)
Definition url_from_mid_stated (mid : str) (base_url : option str) : Prop :=
  composed_url mid (default DEFAULT_BASE_URL base_url)
               (url_from_mid mid base_url).

(** The base the code composes with: the default stands in for a base
    that is absent or empty. *)
Definition base_or_default (base_url : option str) : str :=
  match base_url with
  | Some (c :: b) => c :: b
  | _ => DEFAULT_BASE_URL
  end.

(** The value of environment variable [name] once trimmed, absent when
    the variable is unset or trims to nothing. *)
Definition trimmed_env (env : environ) (name : str) : option str :=
  match env !! name with
  | Some x => match strip x with [] => None | t => Some t end
  | None => None
  end.

(** [s] is [${NAME}] for a NAME of uppercase letters, digits and
    underscores. *)
Definition is_placeholder (s name : str) : Prop :=
  name <> [] /\ Forall (fun c => name_char c = true) name
  /\ s = py "${" ++ name ++ py "}".

(** The tiers of the URL precedence, each a value that is present or
    not. *)
Definition tier_env_url (env : environ) : option str :=
  env_string env (py "POWER_MONITOR_URL").

Definition tier_config_url (env : environ) (cfg : config) : option str :=
  first_present [ config_string env cfg [py "url"];
                  config_string env cfg [py "meter"; py "url"] ].

Definition tier_mid (env : environ) (cfg : config) : option str :=
  first_present [ env_string env (py "POWER_MONITOR_MID");
                  config_string env cfg [py "mid"];
                  config_string env cfg [py "meter"; py "mid"] ].

Definition tier_base (env : environ) (cfg : config) : option str :=
  first_present [ env_string env (py "POWER_MONITOR_BASE_URL");
                  config_string env cfg [py "base_url"];
                  config_string env cfg [py "meter"; py "base_url"] ].

(** The five tiers, highest first: the first one present wins. *)
Definition resolve_url_stated (env : environ) (cli_url : option str)
  (cfg : config) : str :=
  default DEFAULT_URL
    (first_present
       [ cli_url;
         tier_env_url env;
         tier_config_url env cfg;
         (fun mid => url_from_mid mid (tier_base env cfg)) <$> tier_mid env cfg ]).

(** A CLI url that counts: an empty one is as good as none. *)
Definition given_url (cli_url : option str) : option str :=
  match cli_url with
  | Some (_ :: _) => cli_url
  | _ => None
  end.

(** Two labels that differ only in whitespace and colons: either can be
    reached from the other by inserting and deleting whitespace
    characters, ASCII colons and fullwidth colons (exchanging one colon
    for the other is a deletion and an insertion). *)
Definition ignorable (c : char) : Prop :=
  isspace c = true \/ c = ch ":" \/ c = ch "：".

Inductive label_variant : str -> str -> Prop :=
| lv_nil : label_variant [] []
| lv_same c s t : label_variant s t -> label_variant (c :: s) (c :: t)
| lv_left c s t : ignorable c -> label_variant s t -> label_variant (c :: s) t
| lv_right c s t : ignorable c -> label_variant s t -> label_variant s (c :: t).

(** [found] is the first element of [els] that satisfies [P], with the
    elements after it; [None] when no element does. *)
Definition first_such (P : element -> Prop) (els : list element)
  (found : option (element * list element)) : Prop :=
  match found with
  | None => Forall (fun e => ~ P e) els
  | Some (e, after) =>
      exists before, els = before ++ e :: after
                     /\ Forall (fun e' => ~ P e') before /\ P e
  end.

(** [result] is the text of the next value holder (a [label]) after the
    first element that is a label match; absent when nothing matches or
    no value holder follows. *)
Definition value_after_first (is_match : element -> Prop) (sp : soup)
  (result : option str) : Prop :=
  exists found,
    first_such is_match (elements sp) found
    /\ match found with
       | None => result = None
       | Some (_, after) =>
           exists holder,
             first_such (fun e => tag_name e = py "label") after holder
             /\ result = (fun h => get_text (fst h)) <$> holder
       end.

(** A label match as the specification words it: a [span] whose
    normalized text starts with the normalized target. *)
Definition label_match (target : str) (e : element) : Prop :=
  tag_name e = py "span"
  /\ startswith (normalize_label (get_text e)) target = true.

Definition find_value_stated (sp : soup) (keyword : str) : Prop :=
  value_after_first (label_match (normalize_label keyword)) sp
                    (find_value sp keyword).

(** A label match as the code tests it: the text must not be empty. *)
Definition label_match_nonempty (target : str) (e : element) : Prop :=
  label_match target e /\ get_text e <> [].

(** The characters [normalize_label] keeps. *)
Definition kept (c : char) : bool :=
  negb (isspace c) && negb (c =? ch ":") && negb (c =? ch "：").

(** The text of the first [label] after a found match. *)
Definition value_of (found : option (element * list element)) : option str :=
  match found with
  | None => None
  | Some (_, after) => get_text <$> find_next (py "label") after
  end.

(** The page [<span></span><label>A</label><span>x</span><label>B</label>]. *)
Definition empty_span_page : soup :=
  {| elements := [ {| tag_name := py "span"; get_text := [] |};
                   {| tag_name := py "label"; get_text := py "A" |};
                   {| tag_name := py "span"; get_text := py "x" |};
                   {| tag_name := py "label"; get_text := py "B" |} ];
     stripped_strings := [py "A"; py "x"; py "B"] |}.

(** 1234.5 in binary64: 5429388417957888 is 2469 * 2^41, and the number
    is 2469 * 2^41 * 2^-42. *)
Definition float_1234_5 : float := S754_finite false 5429388417957888 (-42).

(** What [float] makes of a string, [None] standing for its
    [ValueError]. *)
Definition float_or_none (lib : Library) (s : str) : option float :=
  match py_float lib s with
  | Return f => Some f
  | Raise _ => None
  end.

(** The zone of [timezone(timedelta(hours=8))]. *)
Definition timezone_utc8 : timezone := {| utcoffset := 8 * 3600 |}.

(** The report [main] makes up when [exc] was raised while the page at
    [url0] was fetched or read. *)
Definition failure_report (w : World) (url0 : str) (exc : exception)
  : PowerReport :=
  {| url := url0;
     fetched_at := {| instant := clock w; tzinfo := timezone_utc |};
     info := {| meter_name := None; meter_id := None; remaining_kwh := None;
                remaining_amount_cny := None; price_per_kwh := None |};
     snippet := py "";
     success := false;
     error := Some (exc_str exc) |}.

(** ** A concrete library and two concrete worlds

    A library whose parser reads every page as one caption and one
    value, a world whose network is down and a world that serves a
    page. *)
Definition sample_soup : soup :=
  {| elements := [ {| tag_name := py "span"; get_text := py "剩余电量：" |};
                   {| tag_name := py "label"; get_text := py "1,234.50" |} ];
     stripped_strings := [py "剩余电量："; py "1,234.50"] |}.

Definition sample_lib : Library :=
  {| unicode_decimal := fun _ => None;
     repr := fun s => py "'" ++ s ++ py "'";
     shorten := fun s _ _ => s;
     BeautifulSoup := fun _ => Return sample_soup;
     strftime := fun _ _ => py "2026-01-01 00:00:00 UTC";
     isoformat := fun _ => py "2026-01-01T00:00:00+00:00";
     format_2f := fun _ => py "1234.50";
     json_dumps := fun _ => py "{}" |}.

Definition connection_error : exception :=
  {| exc_type := OtherException (py "ConnectionError");
     exc_str := py "connection refused" |}.

Definition offline_world : World :=
  {| os_environ := ∅;
     is_file := fun _ => false;
     safe_load_file := fun _ => Return VNone;
     requests_get := fun _ _ _ => Raise connection_error;
     clock := 0;
     print_stdout := fun _ => Return tt;
     mkdir_parents := fun _ => Return tt;
     write_text := fun _ _ => Return tt |}.

Definition online_world : World :=
  {| os_environ := ∅;
     is_file := fun _ => false;
     safe_load_file := fun _ => Return VNone;
     requests_get := fun _ _ _ =>
       Return {| raise_for_status := Return tt; text := py "<html/>" |};
     clock := 0;
     print_stdout := fun _ => Return tt;
     mkdir_parents := fun _ => Return tt;
     write_text := fun _ _ => Return tt |}.

Definition default_args : Args :=
  {| arg_url := None; arg_config := None; arg_format := markdown;
     arg_output := None |}.

(** ** Vocabulary of the further properties *)

(** A string of whitespace only. *)
Definition blank (s : str) : Prop := Forall (fun c => isspace c = true) s.

(** A value that Python's truth test rejects. *)
Definition none_or_empty (o : option str) : Prop := o = None \/ o = Some [].

(** The path [load_config] looks at: its variable [candidate]. *)
Definition config_path (w : World) (path : option str) : str :=
  if_truthy path id
    (if_truthy (os_environ w !! py "POWER_MONITOR_CONFIG") id
       (py "config.yaml")).

(** The error of [load_config] for a document that is not a mapping. *)
Definition config_wrong : exception :=
  {| exc_type := PowerMonitorError; exc_str := py "config.yaml wrong" |}.

(** A number as the page shows it: commas deleted, then [float]. *)
Definition number_of_text (lib : Library) (s : str) : option float :=
  float_or_none lib (replace (ch ",") (py "") s).

(** The fields [extract_power_info] reads off a parsed page. *)
Definition info_of_soup (lib : Library) (sp : soup) : PowerInfo :=
  {| meter_name := find_value sp (py "表名称");
     meter_id := find_value sp (py "表号");
     remaining_kwh := find_value sp (py "剩余电量") ≫= number_of_text lib;
     remaining_amount_cny := find_value sp (py "剩余金额") ≫= number_of_text lib;
     price_per_kwh := find_value sp (py "综合费用") ≫= number_of_text lib |}.

(** [sample_lib] with a parser that reads every page as [sp]. *)
Definition lib_parsing (sp : soup) : Library :=
  {| unicode_decimal := unicode_decimal sample_lib;
     repr := repr sample_lib;
     shorten := shorten sample_lib;
     BeautifulSoup := fun _ => Return sp;
     strftime := strftime sample_lib;
     isoformat := isoformat sample_lib;
     format_2f := format_2f sample_lib;
     json_dumps := json_dumps sample_lib |}.

(** A page of captions without a single value holder. *)
Definition captions_only : soup :=
  {| elements := [ {| tag_name := py "span"; get_text := py "剩余电量" |};
                   {| tag_name := py "span"; get_text := py "剩余金额" |} ];
     stripped_strings := [py "剩余电量"; py "剩余金额"] |}.

(** A world whose configuration file holds a list. *)
Definition list_config_world : World :=
  {| os_environ := ∅;
     is_file := fun _ => true;
     safe_load_file := fun _ => Return (VList [VInt 1]);
     requests_get := fun _ _ _ => Raise connection_error;
     clock := 0;
     print_stdout := fun _ => Return tt;
     mkdir_parents := fun _ => Return tt;
     write_text := fun _ _ => Return tt |}.

(** The headers [fetch_page] sends. *)
Definition browser_headers : list (str * str) :=
  [ (py "User-Agent",
     py "Mozilla/5.0 (X11; Linux x86_64) "
     ++ py "AppleWebKit/537.36 (KHTML, like Gecko) "
     ++ py "Chrome/122.0.0.0 Safari/537.36") ].

(** A page of text-bearing elements: every element has some text. *)
Definition text_bearing (sp : soup) : Prop :=
  Forall (fun e => get_text e <> []) (elements sp).

(** The sink takes the text: standard output for no destination or an
    empty one, else the file at the destination, its directories made
    first. *)
Definition sink_accepts (w : World) (text0 : str) (destination : option str)
  : Prop :=
  match destination with
  | Some (c :: path) =>
      mkdir_parents w (c :: path) = Return tt
      /\ write_text w (c :: path) text0 = Return tt
  | _ => print_stdout w text0 = Return tt
  end.

(** What a write that succeeds does. *)
Definition sink_events (text0 : str) (destination : option str) : list event :=
  match destination with
  | Some (c :: path) => [MakeParents (c :: path); WriteFile (c :: path) text0]
  | _ => [Stdout (text0 ++ [LF])]
  end.

(** The text a run renders for its report. *)
Definition rendered_report (lib : Library) (args : Args) (r : PowerReport)
  : str :=
  match arg_format args with
  | json_format => render_json lib r
  | markdown => render_markdown lib r
  end.

(** The exit behaviour as the specification words it, for one run: with
    [success] false a non-zero status and an error line that comes after
    the write of the rendered report; with [success] true status zero
    and no error line. *)
Definition exit_status_stated (lib : Library) (w : World) (args : Args) : Prop :=
  forall r,
    main_report lib w args = Return r ->
    let p := script lib w args in
    (success r = false ->
     exit_nonzero p = true
     /\ exists before line after,
         events p = before ++ Stderr line :: after
         /\ (Stdout (rendered_report lib args r ++ [LF]) ∈ before
             \/ exists path, WriteFile path (rendered_report lib args r) ∈ before))
    /\ (success r = true ->
        exit_nonzero p = false /\ forall s, Stderr s ∉ events p).

(** A world that serves a page and where the destination is a
    directory, and a run that writes to [/]. *)
Definition is_a_directory : exception :=
  {| exc_type := OtherException (py "IsADirectoryError");
     exc_str := py "[Errno 21] Is a directory: '/'" |}.

Definition unwritable_world : World :=
  {| os_environ := ∅;
     is_file := fun _ => false;
     safe_load_file := fun _ => Return VNone;
     requests_get := fun _ _ _ =>
       Return {| raise_for_status := Return tt; text := py "<html/>" |};
     clock := 0;
     print_stdout := fun _ => Return tt;
     mkdir_parents := fun _ => Return tt;
     write_text := fun _ _ => Raise is_a_directory |}.

Definition slash_args : Args :=
  {| arg_url := None; arg_config := None; arg_format := markdown;
     arg_output := Some (py "/") |}.

Definition file_args : Args :=
  {| arg_url := None; arg_config := None; arg_format := json_format;
     arg_output := Some (py "out/report.json") |}.

(** * Properties *)

(** ** Strings *)

Section StringFacts.

Implicit Types (p : char -> bool) (s t : str) (c : char).

Lemma truthy_true s : truthy s = true <-> s <> [].
Proof. destruct s; simpl; split; intros; congruence. Qed.

Lemma lstrip_with_spec p s :
  exists l, s = l ++ lstrip_with p s /\ Forall (fun c => p c = true) l.
Proof.
  induction s as [|c s [l [Hs Hl]]]; simpl.
  - exists []. split; [reflexivity | constructor].
  - destruct (p c) eqn:Hc.
    + exists (c :: l). split; [simpl; congruence | constructor; assumption].
    + exists []. split; [reflexivity | constructor].
Qed.

Lemma lstrip_with_head p s c t : lstrip_with p s = c :: t -> p c = false.
Proof.
  induction s as [|a s IH]; simpl; [discriminate|].
  destruct (p a) eqn:Ha; [exact IH|].
  intros [= <- <-]. exact Ha.
Qed.

Lemma rstrip_with_spec p s :
  exists r, s = rstrip_with p s ++ r /\ Forall (fun c => p c = true) r.
Proof.
  induction s as [|c s [r [Hs Hr]]]; simpl.
  - exists []. split; [reflexivity | constructor].
  - destruct (rstrip_with p s) as [|c' t'] eqn:E.
    + simpl in Hs. subst s. destruct (p c) eqn:Hc.
      * exists (c :: r). split; [reflexivity | constructor; assumption].
      * exists r. split; [reflexivity | assumption].
    + exists r. split; [simpl in *; congruence | assumption].
Qed.

Lemma rstrip_with_last p s c : last (rstrip_with p s) = Some c -> p c = false.
Proof.
  induction s as [|a s IH]; simpl; [discriminate|].
  destruct (rstrip_with p s) as [|c' t'] eqn:E.
  - destruct (p a) eqn:Ha; simpl; [discriminate|].
    intros [= <-]. exact Ha.
  - intros H. apply IH. rewrite <- H. reflexivity.
Qed.

Lemma rstrip_with_fixed p s :
  (forall c, last s = Some c -> p c = false) -> rstrip_with p s = s.
Proof.
  induction s as [|a s IH]; simpl; [reflexivity|]. intros H.
  destruct s as [|b s'].
  - simpl. rewrite (H a); reflexivity.
  - rewrite IH; [reflexivity|]. intros c Hc. apply H. exact Hc.
Qed.

Lemma rstrip_with_idem p s : rstrip_with p (rstrip_with p s) = rstrip_with p s.
Proof. apply rstrip_with_fixed. intros c. apply rstrip_with_last. Qed.

Lemma rstrip_with_cons_keep p c t :
  p c = false -> exists t', rstrip_with p (c :: t) = c :: t'.
Proof.
  intros Hc. simpl. destruct (rstrip_with p t); rewrite ?Hc; eauto.
Qed.

(** [strip] removes whitespace, and only whitespace, at both ends. *)
Lemma strip_spec s :
  exists l r, s = l ++ strip s ++ r
              /\ Forall (fun c => isspace c = true) l
              /\ Forall (fun c => isspace c = true) r.
Proof.
  destruct (lstrip_with_spec isspace s) as [l [Hl Fl]].
  destruct (rstrip_with_spec isspace (lstrip s)) as [r [Hr Fr]].
  exists l, r. unfold strip, rstrip, lstrip in *.
  split; [|split; assumption]. rewrite <- Hr. exact Hl.
Qed.

Lemma strip_head s c t : strip s = c :: t -> isspace c = false.
Proof.
  unfold strip, rstrip, lstrip. intros H.
  destruct (lstrip_with isspace s) as [|a u] eqn:E; [discriminate|].
  pose proof (lstrip_with_head _ _ _ _ E) as Ha.
  destruct (rstrip_with_cons_keep isspace a u Ha) as [t' Ht'].
  rewrite Ht' in H. injection H as <- _. exact Ha.
Qed.

Lemma strip_last s c : last (strip s) = Some c -> isspace c = false.
Proof. apply rstrip_with_last. Qed.

Lemma strip_idem s : strip (strip s) = strip s.
Proof.
  unfold strip at 1. unfold lstrip.
  destruct (strip s) as [|c t] eqn:E; [reflexivity|].
  simpl lstrip_with. rewrite (strip_head _ _ _ E).
  rewrite <- E. unfold rstrip, strip, rstrip. apply rstrip_with_idem.
Qed.

Lemma span_spec p s :
  s = (span p s).1 ++ (span p s).2
  /\ Forall (fun c => p c = true) (span p s).1
  /\ (forall c, head (span p s).2 = Some c -> p c = false).
Proof.
  induction s as [|a s (IH1 & IH2 & IH3)]; simpl.
  - repeat split; [constructor | discriminate].
  - destruct (p a) eqn:Ha.
    + destruct (span p s) as [x y]; simpl in *. repeat split.
      * congruence.
      * constructor; assumption.
      * exact IH3.
    + simpl. repeat split; [constructor|]. intros c [= <-]. exact Ha.
Qed.

Lemma span_app p a b :
  Forall (fun c => p c = true) a ->
  (forall c, head b = Some c -> p c = false) ->
  span p (a ++ b) = (a, b).
Proof.
  intros Ha Hb. induction Ha as [|c a Hc _ IH]; simpl.
  - destruct b as [|c b]; [reflexivity|]. simpl. rewrite (Hb c); reflexivity.
  - rewrite Hc, IH. reflexivity.
Qed.

End StringFacts.

(** ** ValueResolver *)

Section ResolverFacts.

Implicit Types (env : environ) (cfg : config) (s name : str).

(** The pattern matches the strings [${NAME}] and [${NAME}\n], NAME a
    non-empty run of name characters, and nothing else. *)
Lemma PLACEHOLDER_match_spec s name :
  PLACEHOLDER_match s = Some name <->
  name <> [] /\ Forall (fun c => name_char c = true) name
  /\ (s = py "${" ++ name ++ py "}" \/ s = py "${" ++ name ++ py "}" ++ [LF]).
Proof.
  split.
  - destruct s as [|a [|b t]]; simpl; try discriminate.
    pose proof (span_spec name_char t) as (Ht & Hn & _).
    destruct (span name_char t) as [nm rest]; simpl in *.
    destruct ((a =? ch "$") && (b =? ch "{") && truthy nm
              && (bool_decide (rest = py "}") || bool_decide (rest = [ch "}"; LF])))
      eqn:E; [|discriminate].
    intros [= <-].
    apply andb_prop in E as [E Hr]. apply andb_prop in E as [E Hnm].
    apply andb_prop in E as [Ha Hb].
    apply N.eqb_eq in Ha, Hb. subst a b.
    apply truthy_true in Hnm.
    split; [assumption|]. split; [assumption|].
    apply orb_prop in Hr as [Hr|Hr]; apply bool_decide_eq_true in Hr;
      subst rest t; [left | right]; reflexivity.
  - intros (Hne & Hn & Hs).
    assert (Hsp : forall rest, (rest = py "}" \/ rest = [ch "}"; LF]) ->
              span name_char (name ++ rest) = (name, rest)).
    { intros rest Hrest. apply span_app; [assumption|].
      intros c Hc. destruct Hrest; subst rest; injection Hc as <-; reflexivity. }
    apply truthy_true in Hne.
    destruct Hs as [-> | ->]; simpl.
    + rewrite (Hsp (py "}")) by (left; reflexivity). rewrite Hne. reflexivity.
    + rewrite (Hsp [ch "}"; LF]) by (right; reflexivity).
      rewrite Hne. reflexivity.
Qed.

Lemma env_string_Some env name v :
  env_string env name = Some v -> v <> [] /\ strip v = v.
Proof.
  unfold env_string. destruct (env !! name) as [x|]; [|discriminate].
  destruct (truthy (strip x)) eqn:E; [|discriminate].
  intros [= <-]. split; [apply truthy_true, E | apply strip_idem].
Qed.

Lemma resolve_string_Some env x v :
  resolve_string env x = Some v -> v <> [] /\ strip v = v.
Proof.
  destruct x; simpl; try discriminate.
  destruct (truthy (strip s)) eqn:E; simpl; [|discriminate].
  destruct (PLACEHOLDER_match (strip s)).
  - apply env_string_Some.
  - intros [= <-]. split; [apply truthy_true, E | apply strip_idem].
Qed.

Lemma config_string_Some env cfg keys v :
  config_string env cfg keys = Some v -> v <> [] /\ strip v = v.
Proof. apply resolve_string_Some. Qed.

(** On values that are never the empty string, Python's truth test is
    the test for presence. *)
Lemma first_non_none_present (values : list (option str)) :
  Forall (fun o => o <> Some []) values ->
  first_non_none values = first_present values.
Proof.
  induction 1 as [|o values Ho _ IH]; simpl; [reflexivity|].
  destruct o as [[|c v]|]; simpl; congruence.
Qed.

Lemma if_truthy_present {A} (o : option str) (yes : str -> A) (no : A) :
  o <> Some [] ->
  if_truthy o yes no = match o with Some v => yes v | None => no end.
Proof. destruct o as [[|c v]|]; simpl; congruence. Qed.

Lemma first_present_Some (values : list (option str)) v :
  first_present values = Some v -> In (Some v) values.
Proof.
  induction values as [|[x|] values IH]; simpl; [discriminate| |].
  - intros [= ->]. left. reflexivity.
  - intros H. right. apply IH, H.
Qed.

Lemma env_string_not_empty env name : env_string env name <> Some [].
Proof. intros H. apply env_string_Some in H as [H _]. congruence. Qed.

Lemma config_string_not_empty env cfg keys : config_string env cfg keys <> Some [].
Proof. intros H. apply config_string_Some in H as [H _]. congruence. Qed.

End ResolverFacts.

(** C4.  [resolve_string] returns nothing for a value that is not a
    string or that is empty once trimmed; for a trimmed string of the
    form [${NAME}], NAME made of uppercase letters, digits and
    underscores, it returns the trimmed value of the environment variable
    NAME, nothing when the variable is unset or blank; for any other
    string it returns the trimmed string. *)
Theorem resolve_string_contract (env : environ) (v : value) :
  ((forall s, v <> VStr s) -> resolve_string env v = None)
  /\ (forall s, v = VStr s ->
        (strip s = [] -> resolve_string env v = None)
        /\ (forall name, is_placeholder (strip s) name ->
              resolve_string env v = trimmed_env env name)
        /\ (strip s <> [] ->
            (forall name, ~ is_placeholder (strip s) name) ->
            resolve_string env v = Some (strip s))).
Proof.
  split.
  - intros Hv. destruct v; try reflexivity. exfalso. eapply Hv. reflexivity.
  - intros s ->. simpl. repeat split.
    + intros ->. reflexivity.
    + intros name (Hne & Hn & Hs).
      assert (Ht : truthy (strip s) = true).
      { apply truthy_true. rewrite Hs. discriminate. }
      rewrite Ht. simpl.
      assert (Hm : PLACEHOLDER_match (strip s) = Some name).
      { apply PLACEHOLDER_match_spec. auto. }
      rewrite Hm. unfold env_string, trimmed_env.
      destruct (env !! name) as [x|]; [|reflexivity].
      destruct (strip x); reflexivity.
    + intros Hne Hnot. apply truthy_true in Hne. rewrite Hne. simpl.
      destruct (PLACEHOLDER_match (strip s)) as [name|] eqn:Hm; [|reflexivity].
      exfalso. apply PLACEHOLDER_match_spec in Hm as (H1 & H2 & [H3|H3]).
      * apply (Hnot name). repeat split; assumption.
      * assert (Hl : last (strip s) = Some LF).
        { rewrite H3, !app_assoc. apply last_snoc. }
        apply strip_last in Hl. discriminate.
Qed.

(** A placeholder in the configuration, read through a padded variable. *)
Lemma resolve_string_contract_witness :
  resolve_string {[ py "METER_ID" := py " 999 " ]} (VStr (py " ${METER_ID} "))
  = Some (py "999").
Proof.
  destruct (resolve_string_contract {[ py "METER_ID" := py " 999 " ]}
              (VStr (py " ${METER_ID} "))) as [_ H].
  destruct (H (py " ${METER_ID} ") eq_refl) as (_ & H3 & _).
  rewrite (H3 (py "METER_ID")).
  - vm_compute. reflexivity.
  - repeat split.
    + discriminate.
    + vm_compute. repeat constructor.
Defined.

(** C10.  [env_string], [resolve_string] and [config_string] never
    return the empty string: what they return is absent or a non-empty
    string equal to its own trimming.  Hence on their outputs the truth
    tests of [first_non_none], of [or] and of [if] are tests for
    presence, each tier of the URL precedence is absent or non-empty, and
    the resolved URL is a non-empty string. *)
Theorem resolver_outputs_never_empty :
  (forall env name v, env_string env name = Some v -> v <> [] /\ strip v = v)
  /\ (forall env x v, resolve_string env x = Some v -> v <> [] /\ strip v = v)
  /\ (forall env cfg keys v,
        config_string env cfg keys = Some v -> v <> [] /\ strip v = v)
  /\ (forall env cfg (values : list (option str)),
        Forall (fun o => (exists name, o = env_string env name)
                         \/ (exists x, o = resolve_string env x)
                         \/ (exists keys, o = config_string env cfg keys)) values ->
        first_non_none values = first_present values
        /\ Forall (fun o => is_not_None o
                            = match o with Some u => truthy u | None => false end)
                  values)
  /\ (forall env cfg v,
        In (Some v) [ tier_env_url env; tier_config_url env cfg;
                      tier_mid env cfg; tier_base env cfg ] -> v <> [])
  /\ (forall env cli_url cfg, resolve_url env cli_url cfg <> []).
Proof.
  split; [exact env_string_Some|].
  split; [exact resolve_string_Some|].
  split; [exact config_string_Some|].
  assert (Hout : forall env cfg o,
             (exists name, o = env_string env name)
             \/ (exists x, o = resolve_string env x)
             \/ (exists keys, o = config_string env cfg keys) ->
             o <> Some []).
  { intros env cfg o [[n ->]|[[x ->]|[k ->]]] H.
    - apply env_string_Some in H as [H _]. congruence.
    - apply resolve_string_Some in H as [H _]. congruence.
    - apply config_string_Some in H as [H _]. congruence. }
  split.
  { intros env cfg values Hv. split.
    - apply first_non_none_present.
      eapply Forall_impl; [exact Hv|]. intros o. apply Hout.
    - eapply Forall_impl; [exact Hv|]. intros o Ho.
      apply (Hout env cfg) in Ho. destruct o as [[|c u]|]; simpl; congruence. }
  split.
  { intros env cfg v Hin.
    assert (Hfp : forall values, Forall (fun o => o <> Some []) values ->
                first_present values = Some v -> v <> []).
    { intros values Hall Hf. apply first_present_Some in Hf.
      apply list_elem_of_In in Hf. rewrite Forall_forall in Hall. intros ->. exact (Hall _ Hf eq_refl). }
    simpl in Hin.
    unfold tier_env_url, tier_config_url, tier_mid, tier_base in Hin.
    destruct Hin as [H|[H|[H|[H|[]]]]].
    - apply env_string_Some in H as [H _]. exact H.
    - revert H. apply Hfp.
      repeat constructor; apply config_string_not_empty.
    - revert H. apply Hfp.
      repeat constructor;
        first [apply env_string_not_empty | apply config_string_not_empty].
    - revert H. apply Hfp.
      repeat constructor;
        first [apply env_string_not_empty | apply config_string_not_empty]. }
  intros env cli_url cfg. unfold resolve_url.
  assert (Hif : forall (o : option str) (no : str),
             o <> Some [] -> no <> [] -> if_truthy o id no <> []).
  { intros [[|c u]|] no Ho Hno; simpl; congruence. }
  assert (Hif' : forall (o : option str) (no : str),
             no <> [] -> if_truthy o id no <> []).
  { intros [[|c u]|] no Hno; simpl; congruence. }
  apply Hif'. apply Hif'. apply Hif'.
  unfold if_truthy.
  assert (Hcomp : forall mid base, url_from_mid mid base <> []).
  { intros mid base. unfold url_from_mid.
    destruct (contains (ch "?") _); intros H;
      apply app_eq_nil in H as [_ H]; discriminate. }
  destruct (py_or _ _) as [mid|]; [|discriminate].
  destruct (truthy mid); [apply Hcomp | discriminate].
Qed.

(** The variable holds blanks only: it resolves to nothing, not to the
    empty string. *)
Lemma resolver_outputs_never_empty_witness :
  env_string {[ py "POWER_MONITOR_MID" := py " 42 " ]} (py "POWER_MONITOR_MID")
  = Some (py "42")
  /\ py "42" <> [] /\ strip (py "42") = py "42".
Proof.
  split; [vm_compute; reflexivity|].
  apply (proj1 resolver_outputs_never_empty
           {[ py "POWER_MONITOR_MID" := py " 42 " ]} (py "POWER_MONITOR_MID")).
  vm_compute. reflexivity.
Defined.

(** ** UrlResolver *)

Lemma contains_spec (c : char) (s : str) : contains c s = true <-> c ∈ s.
Proof.
  unfold contains. rewrite existsb_exists, list_elem_of_In. split.
  - intros (x & Hx & Hc). apply N.eqb_eq in Hc. subst x. exact Hx.
  - intros Hc. exists c. split; [exact Hc | apply N.eqb_refl].
Qed.

Lemma Forall_eqb_repeat (c : char) (r : str) :
  Forall (fun x => (c =? x) = true) r -> r = repeat c (length r).
Proof.
  induction 1 as [|x r Hx _ IH]; simpl; [reflexivity|].
  apply N.eqb_eq in Hx. subst x. f_equal. exact IH.
Qed.

Lemma rstrip_char_strips (c : char) (s : str) :
  strips_trailing c s (rstrip_char c s).
Proof.
  unfold strips_trailing, rstrip_char. split.
  - destruct (rstrip_with_spec (N.eqb c) s) as (r & Hs & Hr).
    exists (length r). rewrite <- (Forall_eqb_repeat c r Hr). exact Hs.
  - intros H. apply rstrip_with_last in H. rewrite N.eqb_refl in H. discriminate.
Qed.

Lemma if_truthy_base (base_url : option str) :
  if_truthy base_url id DEFAULT_BASE_URL = base_or_default base_url.
Proof. destruct base_url as [[|c b]|]; reflexivity. Qed.

(** C3, as amended.  [url_from_mid] takes the default base when the base
    is absent or empty, strips the trailing question marks of the base,
    and appends [mid=<mid>] after an ampersand when the stripped base has
    a question mark, after a question mark otherwise; the two URLs of the
    specification come out as written. *)
Theorem url_from_mid_composes :
  (forall mid base_url,
      composed_url mid (base_or_default base_url) (url_from_mid mid base_url))
  /\ url_from_mid (py "20710001759") None
     = py "https://www.wap.ekm365.com/nat/pay.aspx?mid=20710001759"
  /\ url_from_mid (py "X") (Some (py "https://h/p?a=1"))
     = py "https://h/p?a=1&mid=X".
Proof.
  split; [|split; reflexivity].
  intros mid base_url. unfold composed_url, url_from_mid.
  rewrite if_truthy_base.
  exists (rstrip_char (ch "?") (base_or_default base_url)).
  split; [apply rstrip_char_strips|].
  split; intros H.
  - apply contains_spec in H. rewrite H. reflexivity.
  - destruct (contains (ch "?") _) eqn:E; [|reflexivity].
    apply contains_spec in E. contradiction.
Qed.

(** C3, as stated, fails for a base that is the empty string: the code
    composes with the default base, the statement with the empty one. *)
Lemma url_from_mid_empty_base_counterexample :
  url_from_mid (py "X") (Some [])
  = py "https://www.wap.ekm365.com/nat/pay.aspx?mid=X"
  /\ ~ url_from_mid_stated (py "X") (Some []).
Proof.
  split; [reflexivity|].
  unfold url_from_mid_stated, composed_url, strips_trailing. simpl default.
  intros (base' & ((n & Hn) & _) & _ & H).
  symmetry in Hn. apply app_eq_nil in Hn as [-> _].
  specialize (H (not_elem_of_nil (ch "?"))). vm_compute in H. discriminate.
Qed.

Lemma first_present_not_empty (values : list (option str)) :
  Forall (fun o => o <> Some []) values -> first_present values <> Some [].
Proof.
  induction 1 as [|[v|] values Ho _ IH]; simpl; [discriminate | exact Ho | exact IH].
Qed.

Section Tiers.

Context (env : environ) (cfg : config).

Lemma tier_env_url_not_empty : tier_env_url env <> Some [].
Proof. apply env_string_not_empty. Qed.

Lemma tier_config_url_not_empty : tier_config_url env cfg <> Some [].
Proof.
  apply first_present_not_empty. repeat constructor; apply config_string_not_empty.
Qed.

Lemma tier_mid_not_empty : tier_mid env cfg <> Some [].
Proof.
  apply first_present_not_empty.
  repeat constructor;
    first [apply env_string_not_empty | apply config_string_not_empty].
Qed.

(** [e or first_non_none(a, b)] is the first of [e], [a], [b] that is
    present, when none of them can be the empty string. *)
Lemma or_first_non_none (e a b : option str) :
  e <> Some [] -> a <> Some [] -> b <> Some [] ->
  py_or e (first_non_none [a; b]) = first_present [e; a; b].
Proof.
  intros He Ha Hb. unfold py_or. rewrite if_truthy_present by assumption.
  rewrite first_non_none_present by (repeat constructor; assumption).
  destruct e; reflexivity.
Qed.

End Tiers.

(** C2, as amended.  [resolve_url] takes the first tier that is present,
    in the order: a non-empty CLI url (an empty one counts as absent);
    the URL variable of the environment; the configuration key [url],
    else [meter.url]; the composition from a meter id (environment, else
    [mid], else [meter.mid]) and a base (environment, else [base_url],
    else [meter.base_url], else the default base); the default URL.  A
    configuration [{mid: "${METER_ID}"}] under [METER_ID=999] resolves to
    the default base composed with 999. *)
Theorem resolve_url_precedence :
  (forall env cli_url cfg,
      resolve_url env cli_url cfg
      = resolve_url_stated env (given_url cli_url) cfg)
  /\ resolve_url {[ py "METER_ID" := py "999" ]} None
                 {[ py "mid" := VStr (py "${METER_ID}") ]}
     = DEFAULT_BASE_URL ++ py "?mid=999".
Proof.
  split; [|vm_compute; reflexivity].
  intros env cli_url cfg. unfold resolve_url, resolve_url_stated.
  rewrite !or_first_non_none
    by first [apply env_string_not_empty | apply config_string_not_empty].
  rewrite first_non_none_present
    by (repeat constructor; apply config_string_not_empty).
  fold (tier_env_url env) (tier_config_url env cfg)
       (tier_mid env cfg) (tier_base env cfg).
  rewrite (if_truthy_present (tier_env_url env))
    by apply tier_env_url_not_empty.
  rewrite (if_truthy_present (tier_config_url env cfg))
    by apply tier_config_url_not_empty.
  rewrite (if_truthy_present (tier_mid env cfg)) by apply tier_mid_not_empty.
  destruct cli_url as [[|c u]|]; simpl;
    destruct (tier_env_url env); simpl; try reflexivity;
    destruct (tier_config_url env cfg); simpl; try reflexivity;
    destruct (tier_mid env cfg); reflexivity.
Qed.

(** C2, as stated, fails for a CLI url that is the empty string: it is
    present, yet the code falls through to the lower tiers. *)
Lemma resolve_url_empty_cli_counterexample :
  resolve_url ∅ (Some []) ∅ = DEFAULT_URL
  /\ resolve_url_stated ∅ (Some []) ∅ = []
  /\ resolve_url ∅ (Some []) ∅ <> resolve_url_stated ∅ (Some []) ∅.
Proof.
  split; [vm_compute; reflexivity|].
  split; [vm_compute; reflexivity|].
  vm_compute. discriminate.
Qed.

(** ** FieldExtractor: label normalization *)

Lemma join_nil (parts : list str) : join [] parts = concat parts.
Proof.
  induction parts as [|p [|q parts] IH]; simpl in *.
  - reflexivity.
  - rewrite app_nil_r. reflexivity.
  - rewrite IH. reflexivity.
Qed.

Lemma concat_split_from (cur s : str) :
  concat (split_from cur s)
  = rev cur ++ List.filter (fun c => negb (isspace c)) s.
Proof.
  revert cur. induction s as [|c s IH]; intros cur; simpl.
  - destruct cur; simpl; rewrite ?app_nil_r; reflexivity.
  - destruct (isspace c); simpl.
    + destruct cur; simpl; rewrite IH; reflexivity.
    + rewrite IH. simpl. rewrite <- app_assoc. reflexivity.
Qed.

(** Splitting on whitespace and joining with nothing drops exactly the
    whitespace characters. *)
Lemma join_split (s : str) :
  join [] (split s) = List.filter (fun c => negb (isspace c)) s.
Proof. rewrite join_nil. unfold split. apply concat_split_from. Qed.

Lemma normalize_label_kept (s : str) : normalize_label s = List.filter kept s.
Proof.
  unfold normalize_label. rewrite join_split.
  induction s as [|c s IH]; [reflexivity|].
  unfold replace in *. simpl. unfold kept at 1.
  destruct (c =? ch "：") eqn:Hf.
  - apply N.eqb_eq in Hf. subst c. simpl. exact IH.
  - simpl. destruct (isspace c); simpl; [exact IH|].
    destruct (c =? ch ":"); simpl; [exact IH|]. f_equal. exact IH.
Qed.

Lemma ignorable_not_kept (c : char) : ignorable c -> kept c = false.
Proof.
  unfold kept. intros [H|[->| ->]]; [rewrite H|..]; reflexivity.
Qed.

(** C7.  Two labels that differ only in whitespace and in colons, ASCII
    or fullwidth, have the same normalization. *)
Theorem normalize_label_variant (s t : str) :
  label_variant s t -> normalize_label s = normalize_label t.
Proof.
  rewrite !normalize_label_kept.
  induction 1 as [|c s t _ IH|c s t Hc _ IH|c s t Hc _ IH]; simpl.
  - reflexivity.
  - rewrite IH. reflexivity.
  - rewrite (ignorable_not_kept c Hc). exact IH.
  - rewrite (ignorable_not_kept c Hc). exact IH.
Qed.

(** The labels of the specification: a space and a fullwidth colon
    more. *)
Lemma normalize_label_variant_witness :
  normalize_label (py "表 名称：") = normalize_label (py "表名称").
Proof.
  apply normalize_label_variant.
  apply lv_same. apply lv_left; [left; reflexivity|].
  apply lv_same. apply lv_same.
  apply lv_left; [right; right; reflexivity|].
  apply lv_nil.
Defined.

(** ** FieldExtractor: locating a value *)

Section FindValue.

Implicit Types (els : list element) (e : element) (target : str).

Lemma first_such_cons_skip (P : element -> Prop) e els found :
  ~ P e -> first_such P els found ->
  exists found', first_such P (e :: els) found'
                 /\ snd <$> found' = snd <$> found.
Proof.
  intros He. destruct found as [[e' after]|]; simpl.
  - intros (before & -> & Hb & He').
    exists (Some (e', after)). split; [|reflexivity].
    exists (e :: before). repeat split; [constructor|]; assumption.
  - intros Hall. exists None. split; [|reflexivity].
    constructor; assumption.
Qed.

(** [find_next] returns the first element of that name. *)
Lemma find_next_first name els :
  exists holder,
    first_such (fun e => tag_name e = name) els holder
    /\ find_next name els = fst <$> holder.
Proof.
  induction els as [|e els (holder & Hh & Hn)]; simpl.
  - exists None. split; [constructor | reflexivity].
  - destruct (bool_decide (tag_name e = name)) eqn:E.
    + apply bool_decide_eq_true in E.
      exists (Some (e, els)). split; [|reflexivity].
      exists []. repeat split; [constructor | exact E].
    + apply bool_decide_eq_false in E.
      rewrite Hn. destruct holder as [[h rest]|]; simpl in *.
      * destruct Hh as (before & -> & Hb & Hh).
        exists (Some (h, rest)). split; [|reflexivity].
        exists (e :: before). repeat split; [constructor|]; assumption.
      * exists None. split; [constructor; assumption | reflexivity].
Qed.

(** Once no [label] follows, none follows any later span either: the
    loop finds nothing. *)
Lemma find_value_loop_no_label target els :
  find_next (py "label") els = None ->
  find_value_loop target (find_all (py "span") els) = None.
Proof.
  induction els as [|e els IH]; simpl; [reflexivity|].
  destruct (bool_decide (tag_name e = py "label")); [discriminate|].
  intros Hn. specialize (IH Hn).
  destruct (bool_decide (tag_name e = py "span")); [|exact IH].
  simpl. rewrite Hn, IH.
  destruct (negb (truthy (get_text e))); [reflexivity|].
  destruct (startswith _ _); reflexivity.
Qed.

Lemma label_match_nonempty_dec target e :
  label_match_nonempty target e
  <-> bool_decide (tag_name e = py "span")
      && truthy (get_text e)
      && startswith (normalize_label (get_text e)) target = true.
Proof.
  unfold label_match_nonempty, label_match.
  rewrite !andb_true_iff, bool_decide_eq_true, truthy_true. tauto.
Qed.

Lemma first_such_skip target e els found :
  ~ label_match_nonempty target e ->
  first_such (label_match_nonempty target) els found ->
  exists found',
    first_such (label_match_nonempty target) (e :: els) found'
    /\ value_of found = value_of found'.
Proof.
  intros He Hf.
  destruct (first_such_cons_skip _ e els found He Hf) as (f' & Hf' & Hsnd).
  exists f'. split; [exact Hf'|].
  destruct f' as [[? ?]|], found as [[? ?]|]; simpl in *; congruence.
Qed.

Lemma find_value_loop_first target els :
  exists found,
    first_such (label_match_nonempty target) els found
    /\ find_value_loop target (find_all (py "span") els) = value_of found.
Proof.
  induction els as [|e els (found & Hf & Hl)]; simpl.
  - exists None. split; [constructor | reflexivity].
  - pose proof (label_match_nonempty_dec target e) as Hdec.
    destruct (bool_decide (tag_name e = py "span")) eqn:Hs; simpl in *.
    + destruct (truthy (get_text e)) eqn:Ht; simpl in *.
      * destruct (startswith (normalize_label (get_text e)) target) eqn:Hp.
        -- exists (Some (e, els)). split.
           ++ exists []. split; [reflexivity|]. split; [constructor|].
              apply Hdec. reflexivity.
           ++ simpl. destruct (find_next (py "label") els) as [l|] eqn:Hn;
                [reflexivity|].
              apply find_value_loop_no_label. exact Hn.
        -- rewrite Hl. apply first_such_skip; [|exact Hf].
           rewrite Hdec. discriminate.
      * rewrite Hl. apply first_such_skip; [|exact Hf].
        rewrite Hdec. discriminate.
    + rewrite Hl. apply first_such_skip; [|exact Hf].
      rewrite Hdec. discriminate.
Qed.

End FindValue.

(** For every page and every keyword, [find_value] takes as label
    matches the [span] elements whose text is not empty and, once
    normalized, starts with the normalized target; its result is the
    text of the first [label] element after the first match in document
    order, and is absent when nothing matches (or no [label]
    follows). *)
Lemma find_value_first_match (sp : soup) (keyword : str) :
  value_after_first (label_match_nonempty (normalize_label keyword)) sp
                    (find_value sp keyword).
Proof.
  unfold value_after_first, find_value.
  destruct (find_value_loop_first (normalize_label keyword) (elements sp))
    as (found & Hf & Hl).
  exists found. split; [exact Hf|]. rewrite Hl.
  destruct found as [[e after]|]; [|reflexivity]. simpl.
  destruct (find_next_first (py "label") after) as (holder & Hh & Hn).
  exists holder. split; [exact Hh|]. rewrite Hn.
  destruct holder; reflexivity.
Qed.

Lemma first_such_ext (P Q : element -> Prop) (els : list element) found :
  (forall e, e ∈ els -> (P e <-> Q e)) ->
  first_such P els found -> first_such Q els found.
Proof.
  intros Hext. destruct found as [[e after]|]; simpl.
  - intros (before & -> & Hb & He). exists before. split; [reflexivity|].
    split.
    + apply Forall_forall. intros x Hx Hq.
      rewrite Forall_forall in Hb. apply (Hb x Hx).
      apply Hext; [|exact Hq]. apply elem_of_app. left. exact Hx.
    + apply Hext; [|exact He]. apply elem_of_app. right. left.
  - intros Hall. apply Forall_forall. intros x Hx Hq.
    rewrite Forall_forall in Hall. apply (Hall x Hx). apply Hext; assumption.
Qed.

Lemma startswith_nil (target : str) :
  startswith [] target = true -> target = [].
Proof. destruct target; simpl; [reflexivity | discriminate]. Qed.

(** C5.  On a page whose elements all bear text, and for every page when
    the target token is not empty, [find_value] takes as label match a
    [span] whose normalized text starts with the normalized target
    (a prefix match); the value is the text of the next [label] after
    the first match in document order, and the field is absent when no
    element matches. *)
Theorem find_value_prefix_match (sp : soup) (keyword : str) :
  text_bearing sp \/ normalize_label keyword <> [] ->
  find_value_stated sp keyword.
Proof.
  intros Hdom. unfold find_value_stated.
  destruct (find_value_first_match sp keyword) as (found & Hf & Hr).
  exists found. split; [|exact Hr].
  revert Hf. apply first_such_ext. intros e He. split; [intros [H _]; exact H|].
  intros Hm. split; [exact Hm|]. intros Ht.
  destruct Hdom as [Hall | Htarget].
  - unfold text_bearing in Hall. rewrite Forall_forall in Hall.
    exact (Hall e He Ht).
  - destruct Hm as [_ Hp]. rewrite Ht in Hp.
    change (normalize_label []) with (@nil N) in Hp.
    apply startswith_nil in Hp. contradiction.
Qed.

(** The caption of the sample page, found by its keyword. *)
Lemma find_value_prefix_match_witness :
  find_value_stated sample_soup (py "剩余电量").
Proof.
  apply find_value_prefix_match. left.
  repeat constructor; discriminate.
Defined.

(** Outside such pages: for a target that normalizes to nothing, a
    [span] without text is a match by its prefix, yet the code passes
    over it and answers with the value after the next one. *)
Remark find_value_skips_empty_span :
  find_value empty_span_page [] = Some (py "B")
  /\ ~ find_value_stated empty_span_page [].
Proof.
  split; [reflexivity|].
  unfold find_value_stated, value_after_first.
  change (find_value empty_span_page []) with (Some (py "B")).
  unfold empty_span_page at 1.
  intros (found & Hf & Hr).
  destruct found as [[e after]|]; simpl in Hf.
  - destruct Hf as (before & Hels & Hb & _).
    destruct before as [|b before].
    + simpl in Hels. injection Hels as <- <-.
      destruct Hr as (holder & Hh & Hres).
      destruct holder as [[h rest]|]; simpl in Hh.
      * destruct Hh as (skipped & Hafter & Hs & _).
        destruct skipped as [|k skipped].
        -- simpl in Hafter. injection Hafter as <- <-. discriminate Hres.
        -- simpl in Hafter. injection Hafter as <- _.
           apply Forall_cons in Hs as [Hs _]. apply Hs. reflexivity.
      * discriminate Hres.
    + simpl in Hels. injection Hels as <- _.
      apply Forall_cons in Hb as [Hb _]. apply Hb. split; reflexivity.
  - apply Forall_cons in Hf as [Hf _]. apply Hf. split; reflexivity.
Qed.

(** ** FieldExtractor: numbers *)

Lemma py_float_raises_ValueError (lib : Library) (s : str) (e : exception) :
  py_float lib s = Raise e -> is_ValueError e = true.
Proof.
  unfold py_float.
  destruct (strip_underscores _ _ ≫= parse_floatvalue); [discriminate|].
  intros [= <-]. reflexivity.
Qed.

Lemma replace_delete (c : char) (s : str) :
  replace c [] s = List.filter (fun x => negb (x =? c)) s.
Proof.
  unfold replace. induction s as [|x s IH]; simpl; [reflexivity|].
  destruct (x =? c); simpl; congruence.
Qed.

(** C6.  [parse_numeric] returns nothing for no input; otherwise it
    deletes the commas and hands the rest to [float], returning the
    number, or nothing when [float] refuses the string.  It raises in no
    case.  ["1,234.50"] gives 1234.5 and ["abc"] gives nothing. *)
Theorem parse_numeric_never_raises (lib : Library) :
  parse_numeric lib None = Return None
  /\ (forall v,
        parse_numeric lib (Some v)
        = Return (float_or_none lib
                    (List.filter (fun c => negb (c =? ch ",")) v)))
  /\ (forall value0, exists r, parse_numeric lib value0 = Return r)
  /\ parse_numeric lib (Some (py "1,234.50")) = Return (Some float_1234_5)
  /\ parse_numeric lib (Some (py "abc")) = Return None.
Proof.
  assert (Hsome : forall v,
             parse_numeric lib (Some v)
             = Return (float_or_none lib
                         (List.filter (fun c => negb (c =? ch ",")) v))).
  { intros v. unfold parse_numeric, float_or_none. rewrite replace_delete.
    destruct (py_float lib _) as [f|e] eqn:E; [reflexivity|].
    rewrite (py_float_raises_ValueError _ _ _ E). reflexivity. }
  split; [reflexivity|]. split; [exact Hsome|]. split.
  - intros [v|]; [rewrite Hsome|]; eauto.
  - split; vm_compute; reflexivity.
Qed.

(** ** ReportBuilder and CLI driver *)

Section Reports.

Context (lib : Library).

Lemma is_not_None_true {A} (o : option A) : is_not_None o = true <-> o <> None.
Proof. destruct o; simpl; split; intros; congruence. Qed.

(** [collect_report] raises what the fetch raises, else what the
    extraction raises. *)
Lemma collect_report_Raise w url0 exc :
  collect_report lib w url0 = Raise exc <->
  fetch_page w url0 = Raise exc
  \/ exists html, fetch_page w url0 = Return html
                  /\ extract_power_info lib html = Raise exc.
Proof.
  unfold collect_report.
  destruct (fetch_page w url0) as [html|e]; simpl.
  - destruct (extract_power_info lib html) as [[i s]|e] eqn:E; simpl.
    + split; [discriminate|]. intros [H|(h & [= <-] & H)]; congruence.
    + split.
      * intros [= <-]. right. exists html. split; [reflexivity | exact E].
      * intros [H|(h & [= <-] & H)]; congruence.
  - split.
    + intros [= <-]. left. reflexivity.
    + intros [H|(h & H & _)]; congruence.
Qed.

(** What a report built by [collect_report] looks like. *)
Lemma collect_report_Return w url0 r :
  collect_report lib w url0 = Return r ->
  url r = url0
  /\ fetched_at r = {| instant := clock w; tzinfo := timezone_utc8 |}
  /\ success r = is_not_None (remaining_kwh (info r))
  /\ error r = if success r then None else Some MISSING_FIELD.
Proof.
  unfold collect_report.
  destruct (fetch_page w url0) as [html|e]; simpl; [|discriminate].
  destruct (extract_power_info lib html) as [[i s]|e]; simpl; [|discriminate].
  intros [= <-]. simpl. repeat split.
Qed.

Lemma report_or_failure_Return w url0 r :
  report_or_failure lib w url0 = Return r ->
  collect_report lib w url0 = Return r
  \/ exists exc, collect_report lib w url0 = Raise exc
                 /\ is_Exception exc = true
                 /\ r = failure_report w url0 exc.
Proof.
  unfold report_or_failure.
  destruct (collect_report lib w url0) as [r'|exc].
  - intros [= <-]. left. reflexivity.
  - destruct (is_Exception exc) eqn:E; [|discriminate].
    intros [= <-]. right. exists exc. repeat split. exact E.
Qed.

Lemma main_report_Return w args r :
  main_report lib w args = Return r ->
  exists cfg, load_config w (arg_config args) = Return cfg
              /\ url r = resolve_url (os_environ w) (arg_url args) cfg
              /\ report_or_failure lib w (url r) = Return r.
Proof.
  unfold main_report.
  destruct (load_config w (arg_config args)) as [cfg|e]; simpl; [|discriminate].
  intros H. exists cfg. split; [reflexivity|].
  assert (Hu : url r = resolve_url (os_environ w) (arg_url args) cfg).
  { apply report_or_failure_Return in H as [H|(exc & _ & _ & ->)].
    - apply collect_report_Return in H as [H _]. exact H.
    - reflexivity. }
  rewrite Hu. split; [reflexivity | exact H].
Qed.

End Reports.

(** C1.  In the report of a run, [success] holds exactly when
    [remaining_kwh] is present.  With [success] the report has no error;
    without, its error is the missing-field message when [collect_report]
    built it, and the message of the exception when [collect_report]
    raised one. *)
Theorem report_success_iff_remaining_kwh
  (lib : Library) (w : World) (args : Args) (r : PowerReport) :
  main_report lib w args = Return r ->
  (success r = true <-> remaining_kwh (info r) <> None)
  /\ (success r = true -> error r = None)
  /\ (success r = false ->
      (collect_report lib w (url r) = Return r
       /\ error r = Some MISSING_FIELD)
      \/ (exists exc, collect_report lib w (url r) = Raise exc
                      /\ error r = Some (exc_str exc))).
Proof.
  intros H. apply main_report_Return in H as (cfg & _ & _ & H).
  apply report_or_failure_Return in H as [H|(exc & H & _ & Hr)].
  - pose proof (collect_report_Return _ _ _ _ H) as (_ & _ & Hs & He).
    split; [rewrite Hs; apply is_not_None_true|].
    split.
    + intros Ht. rewrite Ht in He. exact He.
    + intros Hf. left. rewrite Hf in He. split; assumption.
  - assert (Hu : url r = url (failure_report w (url r) exc)) by reflexivity.
    rewrite Hr in *. simpl in *. split; [split; [discriminate|congruence]|].
    split; [discriminate|].
    intros _. right. exists exc. split; [exact H | reflexivity].
Qed.

(** A page that shows the remaining energy: the run reports success. *)
Lemma report_success_iff_remaining_kwh_witness :
  exists r, main_report sample_lib online_world default_args = Return r
            /\ success r = true
            /\ remaining_kwh (info r) = Some float_1234_5
            /\ error r = None.
Proof.
  eexists. split; [vm_compute; reflexivity|].
  match goal with |- success ?r = _ /\ _ =>
    destruct (report_success_iff_remaining_kwh
                sample_lib online_world default_args r) as (H1 & H2 & _)
  end; [vm_compute; reflexivity|].
  split; [reflexivity|]. split; [reflexivity|].
  apply H2. reflexivity.
Defined.

(** C8.  When the fetch or the extraction raises an exception (an
    instance of [Exception]), [main] goes on with a report made of the
    URL, the current time in UTC, a [PowerInfo] with every field absent,
    an empty snippet, [success] false and the exception's message as
    error.  A report that [collect_report] returns is kept as it is and
    carries the time in the UTC+8 zone, which is not UTC. *)
Theorem exception_gives_failure_report :
  (forall lib w args cfg exc,
      load_config w (arg_config args) = Return cfg ->
      let url0 := resolve_url (os_environ w) (arg_url args) cfg in
      (fetch_page w url0 = Raise exc
       \/ exists html, fetch_page w url0 = Return html
                       /\ extract_power_info lib html = Raise exc) ->
      is_Exception exc = true ->
      main_report lib w args = Return (failure_report w url0 exc)
      /\ tzinfo (fetched_at (failure_report w url0 exc)) = timezone_utc)
  /\ (forall lib w args cfg r,
        load_config w (arg_config args) = Return cfg ->
        collect_report lib w (resolve_url (os_environ w) (arg_url args) cfg)
        = Return r ->
        main_report lib w args = Return r
        /\ fetched_at r = {| instant := clock w; tzinfo := timezone_utc8 |})
  /\ utcoffset timezone_utc = 0%Z
  /\ utcoffset timezone_utc8 = 28800%Z
  /\ timezone_utc <> timezone_utc8.
Proof.
  split; [|split; [|split; [|split]]]; try reflexivity.
  - intros lib w args cfg exc Hcfg url0 Hraise Hexc.
    split; [|reflexivity].
    apply collect_report_Raise in Hraise.
    unfold main_report. rewrite Hcfg. simpl.
    unfold report_or_failure. fold url0. rewrite Hraise, Hexc. reflexivity.
  - intros lib w args cfg r Hcfg Hr. split.
    + unfold main_report. rewrite Hcfg. simpl.
      unfold report_or_failure. rewrite Hr. reflexivity.
    + apply collect_report_Return in Hr as (_ & Ht & _). exact Ht.
  - discriminate.
Qed.

(** The network is down: the run reports the connection error. *)
Lemma exception_gives_failure_report_witness :
  main_report sample_lib offline_world default_args
  = Return (failure_report offline_world DEFAULT_URL connection_error).
Proof.
  refine (proj1 (proj1 exception_gives_failure_report
                   sample_lib offline_world default_args ∅ connection_error
                   _ _ _)).
  - reflexivity.
  - left. reflexivity.
  - reflexivity.
Defined.

Section SinkFacts.

Context (lib : Library) (w : World).

Lemma write_output_accepted text0 destination :
  sink_accepts w text0 destination ->
  write_output w text0 destination = (sink_events text0 destination, Return tt).
Proof.
  unfold sink_accepts, sink_events, write_output.
  destruct destination as [[|c path]|]; simpl.
  - intros ->. reflexivity.
  - intros [-> ->]. reflexivity.
  - intros ->. reflexivity.
Qed.

Lemma write_output_Return text0 destination evs :
  write_output w text0 destination = (evs, Return tt) ->
  sink_accepts w text0 destination.
Proof.
  unfold sink_accepts, write_output.
  destruct destination as [[|c path]|]; simpl.
  - destruct (print_stdout w text0) as [[]|]; [reflexivity | discriminate].
  - destruct (mkdir_parents w (c :: path)) as [[]|]; [|discriminate].
    destruct (write_text w (c :: path) text0) as [[]|]; [|discriminate].
    split; reflexivity.
  - destruct (print_stdout w text0) as [[]|]; [reflexivity | discriminate].
Qed.

Lemma render_rendered args r :
  render lib (arg_format args) r = rendered_report lib args r.
Proof. unfold render, rendered_report. destruct (arg_format args); reflexivity. Qed.

Lemma sink_events_no_stderr text0 destination s :
  Stderr s ∉ sink_events text0 destination.
Proof.
  unfold sink_events. intros Hin.
  destruct destination as [[|c path]|];
    repeat (apply elem_of_cons in Hin as [Hin|Hin]; [discriminate|]);
    apply elem_of_nil in Hin; exact Hin.
Qed.

End SinkFacts.

(** C9, as amended.  When the write of the rendered report to the chosen
    sink succeeds (standard output for no destination or an empty one,
    else the file at the destination): for a report with [success]
    false the process writes the rendered report there, then prints the
    error line on the error stream, and ends on the
    [PowerMonitorError], so with a non-zero status; for a report with
    [success] true it writes the rendered report, prints nothing on the
    error stream and ends with status zero.  When the write raises, the
    process ends on that exception, with a non-zero status whatever
    [success] is. *)
Theorem failure_exits_nonzero_after_output
  (lib : Library) (w : World) (args : Args) (r : PowerReport) :
  main_report lib w args = Return r ->
  let p := script lib w args in
  let rendered := rendered_report lib args r in
  (sink_accepts w rendered (arg_output args) ->
   (success r = false ->
    exit_nonzero p = true
    /\ exists exc,
        is_PowerMonitorError exc = true
        /\ exc_str exc = if_truthy (error r) id (py "Power monitor failed")
        /\ uncaught p = Some exc
        /\ events p
           = sink_events rendered (arg_output args)
             ++ [Stderr (py "Error: " ++ exc_str exc ++ [LF]); Traceback exc])
   /\ (success r = true ->
       exit_nonzero p = false
       /\ events p = sink_events rendered (arg_output args)
       /\ forall s, Stderr s ∉ events p))
  /\ (forall evs exc,
        write_output w rendered (arg_output args) = (evs, Raise exc) ->
        exit_nonzero p = true /\ uncaught p = Some exc).
Proof.
  intros H p rendered. subst p. unfold script, main. rewrite H.
  rewrite render_rendered. fold rendered. split.
  - intros Hok. rewrite (write_output_accepted w _ _ Hok).
    split; intros Hs; rewrite Hs; simpl.
    + split; [reflexivity|]. eexists.
      split; [|split; [|split; reflexivity]]; reflexivity.
    + split; [reflexivity|]. split; [reflexivity|].
      intros s. apply sink_events_no_stderr.
  - intros evs exc ->. destruct (is_PowerMonitorError exc); split; reflexivity.
Qed.

(** The network is down: the report goes to standard output, the error
    line follows, and the status is not zero. *)
Lemma failure_exits_nonzero_after_output_witness :
  exit_nonzero (script sample_lib offline_world default_args) = true
  /\ exists report_text message trace,
      events (script sample_lib offline_world default_args)
      = [Stdout report_text; Stderr message; trace].
Proof.
  destruct (failure_exits_nonzero_after_output
              sample_lib offline_world default_args
              (failure_report offline_world DEFAULT_URL connection_error))
    as (Hok & _); [reflexivity|].
  destruct (Hok eq_refl) as (Hfail & _).
  destruct (Hfail eq_refl) as (Hexit & exc & _ & _ & _ & Hev).
  split; [exact Hexit|].
  rewrite Hev. simpl. eauto.
Defined.

(** C9, as stated, fails when the sink refuses the write: the page shows
    the remaining energy and the report has [success] true, yet writing
    to [/] raises and the process ends on that exception. *)
Lemma unwritable_output_counterexample :
  (exists r, main_report sample_lib unwritable_world slash_args = Return r
             /\ success r = true)
  /\ exit_nonzero (script sample_lib unwritable_world slash_args) = true
  /\ ~ exit_status_stated sample_lib unwritable_world slash_args.
Proof.
  split; [eexists; split; vm_compute; reflexivity|].
  split; [vm_compute; reflexivity|].
  intros Hstated.
  assert (Hr : exists r, main_report sample_lib unwritable_world slash_args
                         = Return r /\ success r = true).
  { eexists. split; vm_compute; reflexivity. }
  destruct Hr as (r & Hr & Hs).
  destruct (Hstated r Hr) as (_ & Htrue).
  destruct (Htrue Hs) as (Hexit & _).
  vm_compute in Hexit. discriminate.
Qed.

(** * Further properties of the code *)

(** ** Trimming *)

Section TrimFacts.

Implicit Types (p : char -> bool) (s l r : str).

Lemma lstrip_with_all p s :
  Forall (fun c => p c = true) s -> lstrip_with p s = [].
Proof. induction 1 as [|c s Hc _ IH]; simpl; [|rewrite Hc]; auto. Qed.

Lemma rstrip_with_all p s :
  Forall (fun c => p c = true) s -> rstrip_with p s = [].
Proof. induction 1 as [|c s Hc _ IH]; simpl; [|rewrite IH, Hc]; auto. Qed.

Lemma rstrip_with_app_all p s r :
  Forall (fun c => p c = true) r -> rstrip_with p (s ++ r) = rstrip_with p s.
Proof.
  intros Hr. induction s as [|c s IH]; simpl.
  - apply rstrip_with_all, Hr.
  - rewrite IH. reflexivity.
Qed.

Lemma lstrip_with_app_all p l s :
  Forall (fun c => p c = true) l -> lstrip_with p (l ++ s) = lstrip_with p s.
Proof. induction 1 as [|c l Hc _ IH]; simpl; [|rewrite Hc]; auto. Qed.

Lemma strip_nil_iff s : strip s = [] <-> blank s.
Proof.
  unfold blank. split.
  - intros H. destruct (strip_spec s) as (l & r & Hs & Hl & Hr).
    rewrite H in Hs. simpl in Hs. subst s. apply Forall_app. auto.
  - intros H. unfold strip, lstrip, rstrip.
    rewrite (lstrip_with_all _ _ H). reflexivity.
Qed.

(** Whitespace around a string does not change its trimming. *)
Lemma strip_padded l s r : blank l -> blank r -> strip (l ++ s ++ r) = strip s.
Proof.
  unfold blank, strip, lstrip, rstrip. intros Hl Hr.
  rewrite (lstrip_with_app_all _ _ _ Hl).
  induction s as [|c s IH]; simpl.
  - rewrite (lstrip_with_all _ _ Hr). reflexivity.
  - destruct (isspace c); [exact IH|].
    apply (rstrip_with_app_all isspace (c :: s) r Hr).
Qed.

End TrimFacts.

(** ** ValueResolver and UrlResolver *)

(** X1.  Looking a path up in two steps is looking the whole path up:
    [lookup] over [keys ++ keys'] is the lookup of [keys'] in what
    [keys] leads to. *)
Theorem lookup_path_app (v : value) (keys keys' : list str) :
  lookup_path v (keys ++ keys') = lookup_path (lookup_path v keys) keys'.
Proof.
  revert v. induction keys as [|k keys IH]; intros v; simpl; [reflexivity|].
  destruct v; try (destruct keys'; reflexivity). apply IH.
Qed.

(** X2.  [lookup] never fails: a key that is missing gives [None]
    whatever follows it, and so does a key whose value is not a mapping
    when more keys follow; a single key that is there gives its value. *)
Theorem lookup_missing_or_not_mapping (cfg : config) (k : str) (keys : list str) :
  (cfg !! k = None -> lookup cfg (k :: keys) = VNone)
  /\ (forall v, cfg !! k = Some v -> (forall m, v <> VDict m) -> keys <> [] ->
        lookup cfg (k :: keys) = VNone)
  /\ (forall v, cfg !! k = Some v -> lookup cfg [k] = v).
Proof.
  unfold lookup. simpl. repeat split.
  - intros ->. simpl. destruct keys; reflexivity.
  - intros v -> Hv Hk. simpl. destruct keys as [|k' keys]; [congruence|].
    destruct v; try reflexivity. exfalso. eapply Hv. reflexivity.
  - intros v ->. reflexivity.
Qed.

(** A [url] key under a [meter] that is a plain string is not found. *)
Lemma lookup_missing_or_not_mapping_witness :
  lookup {[ py "meter" := VStr (py "m1") ]} [py "meter"; py "url"] = VNone.
Proof.
  apply (proj1 (proj2 (lookup_missing_or_not_mapping
                         {[ py "meter" := VStr (py "m1") ]} (py "meter") [py "url"]))
           (VStr (py "m1"))).
  - vm_compute. reflexivity.
  - discriminate.
  - discriminate.
Defined.

(** X3.  [first_non_none] returns the first value that is neither [None]
    nor the empty string, and [None] when there is no such value; it
    never returns the empty string. *)
Theorem first_non_none_first_nonempty (values : list (option str)) :
  match first_non_none values with
  | Some v =>
      v <> []
      /\ exists before after,
          values = before ++ Some v :: after /\ Forall none_or_empty before
  | None => Forall none_or_empty values
  end.
Proof.
  induction values as [|[[|c v]|] values IH]; simpl.
  - constructor.
  - destruct (first_non_none values) as [v'|].
    + destruct IH as (Hv & before & after & -> & Hb). split; [exact Hv|].
      exists (Some [] :: before), after. split; [reflexivity|].
      constructor; [right; reflexivity | exact Hb].
    + constructor; [right; reflexivity | exact IH].
  - split; [discriminate|]. exists [], values. split; [reflexivity | constructor].
  - destruct (first_non_none values) as [v'|].
    + destruct IH as (Hv & before & after & -> & Hb). split; [exact Hv|].
      exists (None :: before), after. split; [reflexivity|].
      constructor; [left; reflexivity | exact Hb].
    + constructor; [left; reflexivity | exact IH].
Qed.

(** X4.  [env_string] gives nothing exactly when the variable is unset
    or holds only whitespace. *)
Theorem env_string_None_iff (env : environ) (name : str) :
  env_string env name = None
  <-> env !! name = None \/ exists x, env !! name = Some x /\ blank x.
Proof.
  unfold env_string. destruct (env !! name) as [x|].
  - destruct (truthy (strip x)) eqn:E.
    + split; [discriminate|]. intros [H|(y & [= <-] & Hy)]; [discriminate|].
      apply strip_nil_iff in Hy. rewrite Hy in E. discriminate.
    + split; [|reflexivity]. intros _. right. exists x. split; [reflexivity|].
      apply strip_nil_iff. destruct (strip x); [reflexivity | discriminate].
  - split; auto.
Qed.

(** X5.  Whitespace around a value is immaterial: a configuration value
    and an environment variable resolve the same with and without
    it. *)
Theorem resolve_ignores_padding (env : environ) (l s r : str) :
  blank l -> blank r ->
  resolve_string env (VStr (l ++ s ++ r)) = resolve_string env (VStr s)
  /\ forall name,
      env_string (<[name := l ++ s ++ r]> env) name
      = env_string (<[name := s]> env) name.
Proof.
  intros Hl Hr. split.
  - simpl. rewrite (strip_padded l s r Hl Hr). reflexivity.
  - intros name. unfold env_string. rewrite !lookup_insert_eq.
    rewrite (strip_padded l s r Hl Hr). reflexivity.
Qed.

Lemma resolve_ignores_padding_witness :
  resolve_string ∅ (VStr (py "  " ++ py "https://h/p" ++ [LF]))
  = resolve_string ∅ (VStr (py "https://h/p")).
Proof.
  apply (resolve_ignores_padding ∅ (py "  ") (py "https://h/p") [LF]).
  - repeat constructor.
  - repeat constructor.
Defined.

Lemma contains_app (c : char) (a b : str) :
  contains c (a ++ b) = contains c a || contains c b.
Proof. unfold contains. apply existsb_app. Qed.

(** X6.  Whatever the base, the URL that [url_from_mid] composes has a
    query: it contains a question mark and ends with [mid=<mid>]; and
    two meter ids give the same URL only if they are the same. *)
Theorem url_from_mid_has_query (mid : str) (base_url : option str) :
  contains (ch "?") (url_from_mid mid base_url) = true
  /\ (exists front, url_from_mid mid base_url = front ++ py "mid=" ++ mid)
  /\ (forall mid', url_from_mid mid base_url = url_from_mid mid' base_url ->
        mid = mid').
Proof.
  unfold url_from_mid.
  set (base := rstrip_char (ch "?") (if_truthy base_url id DEFAULT_BASE_URL)).
  repeat split.
  - rewrite contains_app. destruct (contains (ch "?") base) eqn:E; reflexivity.
  - exists (base ++ if contains (ch "?") base then py "&" else py "?").
    rewrite <- !app_assoc. reflexivity.
  - intros mid' H. apply app_inv_head in H. apply app_inv_head in H.
    apply app_inv_head in H. exact H.
Qed.

(** X7.  Question marks at the end of a base are immaterial:
    [https://h/p?] and [https://h/p] compose to the same URL.  A base
    made of question marks only composes to a bare query. *)
Theorem url_from_mid_trailing_question_marks (mid b : str) (n : nat) :
  b <> [] ->
  url_from_mid mid (Some (b ++ repeat (ch "?") n)) = url_from_mid mid (Some b)
  /\ url_from_mid mid (Some (repeat (ch "?") (S n))) = py "?mid=" ++ mid.
Proof.
  intros Hb.
  assert (Hall : forall k, Forall (fun c => (ch "?" =? c) = true)
                             (repeat (ch "?") k)).
  { intros k. induction k; simpl; constructor; auto. }
  split.
  - unfold url_from_mid.
    assert (Hs : rstrip_char (ch "?")
                   (if_truthy (Some (b ++ repeat (ch "?") n)) id DEFAULT_BASE_URL)
                 = rstrip_char (ch "?") (if_truthy (Some b) id DEFAULT_BASE_URL)).
    { destruct b as [|c b]; [congruence|]. simpl if_truthy. unfold id.
      apply (rstrip_with_app_all _ (c :: b) _ (Hall n)). }
    rewrite Hs. reflexivity.
  - unfold url_from_mid. simpl if_truthy. unfold id, rstrip_char.
    change (ch "?" :: repeat (ch "?") n) with (repeat (ch "?") (S n)).
    rewrite (rstrip_with_all _ _ (Hall (S n))). reflexivity.
Qed.

Lemma url_from_mid_trailing_question_marks_witness :
  url_from_mid (py "7") (Some (py "https://h/p??"))
  = url_from_mid (py "7") (Some (py "https://h/p")).
Proof.
  apply (proj1 (url_from_mid_trailing_question_marks
                  (py "7") (py "https://h/p") 2 ltac:(discriminate))).
Defined.

(** [resolve_url] written over the tiers. *)
Lemma resolve_url_tiers (env : environ) (cli_url : option str) (cfg : config) :
  resolve_url env cli_url cfg
  = if_truthy cli_url id
      (match tier_env_url env with
       | Some u => u
       | None =>
           match tier_config_url env cfg with
           | Some u => u
           | None =>
               match tier_mid env cfg with
               | Some mid => url_from_mid mid (tier_base env cfg)
               | None => DEFAULT_URL
               end
           end
       end).
Proof.
  unfold resolve_url.
  rewrite !or_first_non_none
    by first [apply env_string_not_empty | apply config_string_not_empty].
  rewrite first_non_none_present
    by (repeat constructor; apply config_string_not_empty).
  fold (tier_env_url env) (tier_config_url env cfg)
       (tier_mid env cfg) (tier_base env cfg).
  rewrite (if_truthy_present (tier_env_url env))
    by apply tier_env_url_not_empty.
  rewrite (if_truthy_present (tier_config_url env cfg))
    by apply tier_config_url_not_empty.
  rewrite (if_truthy_present (tier_mid env cfg)) by apply tier_mid_not_empty.
  reflexivity.
Qed.

(** X8.  A base URL without a meter id has no effect: when no URL is
    given on the command line, in the environment or in the
    configuration and no meter id is configured, [resolve_url] returns
    the default URL, whatever base is configured. *)
Theorem resolve_url_base_alone (env : environ) (cli_url : option str)
  (cfg : config) :
  none_or_empty cli_url ->
  tier_env_url env = None -> tier_config_url env cfg = None ->
  tier_mid env cfg = None ->
  resolve_url env cli_url cfg = DEFAULT_URL.
Proof.
  intros Hcli He Hc Hm. rewrite resolve_url_tiers, He, Hc, Hm.
  destruct Hcli as [-> | ->]; reflexivity.
Qed.

Lemma resolve_url_base_alone_witness :
  resolve_url {[ py "POWER_MONITOR_BASE_URL" := py "https://h/p" ]} None ∅
  = DEFAULT_URL.
Proof.
  apply resolve_url_base_alone.
  - left. reflexivity.
  - vm_compute. reflexivity.
  - vm_compute. reflexivity.
  - vm_compute. reflexivity.
Defined.

(** ** Config loading and PageFetcher *)

(** X9.  [load_config] on the path it looks at: no file there gives the
    empty configuration; what reading or parsing the file raises goes
    through; a mapping is returned as it is; any other document gives
    the empty configuration when it is falsy (null, zero, false, an
    empty string or list) and raises [PowerMonitorError] when it is
    not. *)
Theorem load_config_outcomes (w : World) (path : option str) :
  (is_file w (config_path w path) = false -> load_config w path = Return ∅)
  /\ (is_file w (config_path w path) = true ->
      (forall e, safe_load_file w (config_path w path) = Raise e ->
                 load_config w path = Raise e)
      /\ (forall v, safe_load_file w (config_path w path) = Return v ->
            load_config w path
            = match v with
              | VDict m => Return m
              | _ => if value_truthy v then Raise config_wrong else Return ∅
              end)).
Proof.
  unfold load_config. fold (config_path w path). split.
  - intros ->. reflexivity.
  - intros ->. simpl. split.
    + intros e ->. reflexivity.
    + intros v ->. simpl.
      destruct v as [| b | z | f | s | l | m]; simpl; try reflexivity.
      * destruct b; reflexivity.
      * destruct (z =? 0)%Z; reflexivity.
      * destruct f; reflexivity.
      * destruct s; reflexivity.
      * destruct l; reflexivity.
      * destruct (bool_decide (m = ∅)) eqn:E; [|reflexivity].
        apply bool_decide_eq_true in E. subst m. reflexivity.
Qed.

(** A configuration file that holds a list is refused. *)
Lemma load_config_outcomes_witness :
  load_config list_config_world None = Raise config_wrong.
Proof.
  apply (proj2 (proj2 (load_config_outcomes list_config_world None) eq_refl)
           (VList [VInt 1])).
  reflexivity.
Defined.

(** X10.  [fetch_page] returns a text only if the request went through
    and the status check passed, and the text is the body of that
    response; what the request or the status check raises is raised by
    [fetch_page].  The request carries the browser's [User-Agent]
    header and a timeout of 30 seconds. *)
Theorem fetch_page_checks_status (w : World) (url0 : str) :
  (forall html, fetch_page w url0 = Return html ->
     exists resp, requests_get w url0 browser_headers 30%Z = Return resp
                  /\ raise_for_status resp = Return tt
                  /\ text resp = html)
  /\ (forall e, fetch_page w url0 = Raise e <->
        requests_get w url0 browser_headers 30%Z = Raise e
        \/ exists resp, requests_get w url0 browser_headers 30%Z = Return resp
                        /\ raise_for_status resp = Raise e).
Proof.
  unfold fetch_page. fold browser_headers.
  destruct (requests_get w url0 browser_headers 30%Z) as [resp|e0]; simpl.
  - destruct (raise_for_status resp) as [[]|e1] eqn:E; simpl; split.
    + intros html [= <-]. exists resp. repeat split. exact E.
    + intros e. split; [discriminate|].
      intros [H|(r & [= <-] & H)]; congruence.
    + discriminate.
    + intros e. split.
      * intros [= <-]. right. exists resp. split; [reflexivity | exact E].
      * intros [H|(r & [= <-] & H)]; congruence.
  - split; [discriminate|]. intros e. split.
    + intros [= <-]. left. reflexivity.
    + intros [H|(r & H & _)]; congruence.
Qed.

Lemma fetch_page_checks_status_witness :
  fetch_page online_world DEFAULT_URL = Return (py "<html/>")
  /\ fetch_page offline_world DEFAULT_URL = Raise connection_error.
Proof.
  destruct (fetch_page_checks_status offline_world DEFAULT_URL)
    as (_ & Hraise).
  split; [reflexivity|]. apply Hraise. left. reflexivity.
Defined.

(** ** FieldExtractor *)

Section ExtractionFacts.

Context (lib : Library).

Lemma parse_numeric_Return (text0 : option str) :
  parse_numeric lib text0 = Return (text0 ≫= number_of_text lib).
Proof.
  destruct text0 as [v|]; [|reflexivity].
  unfold parse_numeric, number_of_text, float_or_none. simpl.
  destruct (py_float lib _) as [f|e] eqn:E; [reflexivity|].
  rewrite (py_float_raises_ValueError _ _ _ E). reflexivity.
Qed.

Lemma find_next_In name (els : list element) e :
  find_next name els = Some e -> e ∈ els /\ tag_name e = name.
Proof.
  induction els as [|a els IH]; simpl; [discriminate|].
  destruct (bool_decide (tag_name a = name)) eqn:E.
  - intros [= <-]. apply bool_decide_eq_true in E. split; [left | exact E].
  - intros H. destruct (IH H) as [Hin Ht]. split; [right; exact Hin | exact Ht].
Qed.

Lemma find_next_None name (els : list element) :
  Forall (fun e => tag_name e <> name) els -> find_next name els = None.
Proof.
  induction 1 as [|a els Ha _ IH]; simpl; [reflexivity|].
  rewrite (bool_decide_eq_false_2 _ Ha). exact IH.
Qed.

Lemma find_value_loop_label target (els : list element) v :
  find_value_loop target (find_all (py "span") els) = Some v ->
  exists e, e ∈ els /\ tag_name e = py "label" /\ get_text e = v.
Proof.
  induction els as [|a els IH]; simpl; [discriminate|].
  assert (Hrest : find_value_loop target (find_all (py "span") els) = Some v ->
                  exists e, e ∈ a :: els /\ tag_name e = py "label"
                            /\ get_text e = v).
  { intros H. destruct (IH H) as (e & Hin & He). exists e.
    split; [right; exact Hin | exact He]. }
  destruct (bool_decide (tag_name a = py "span")); [|exact Hrest].
  simpl. destruct (negb (truthy (get_text a))); [exact Hrest|].
  destruct (startswith _ _); [|exact Hrest].
  destruct (find_next (py "label") els) as [l|] eqn:Hn; [|exact Hrest].
  intros [= <-]. apply find_next_In in Hn as [Hin Hl].
  exists l. split; [right; exact Hin|]. split; [exact Hl | reflexivity].
Qed.

End ExtractionFacts.

(** With a parsed page in hand the extraction returns, the fields read
    off the page. *)
Lemma extract_power_info_Return (lib : Library) (html : str) (sp : soup) :
  BeautifulSoup lib html = Return sp ->
  exists snippet0,
    extract_power_info lib html = Return (info_of_soup lib sp, snippet0).
Proof.
  intros H. unfold extract_power_info. rewrite H. simpl.
  rewrite !parse_numeric_Return. simpl. eexists. reflexivity.
Qed.

(** X11.  The extraction raises exactly what the HTML parser raises and
    nothing else: a field that is missing or is not a number never
    raises.  When the parser returns, the two names are the texts found
    and the three numbers are the texts found, read as numbers, each
    absent when its text is missing or is not a number. *)
Theorem extract_power_info_raises_with_parser (lib : Library) (html : str) :
  (forall e, extract_power_info lib html = Raise e
             <-> BeautifulSoup lib html = Raise e)
  /\ (forall sp, BeautifulSoup lib html = Return sp ->
        exists snippet0,
          extract_power_info lib html = Return (info_of_soup lib sp, snippet0)).
Proof.
  unfold extract_power_info.
  destruct (BeautifulSoup lib html) as [sp|e0]; simpl.
  - rewrite !parse_numeric_Return. simpl. split.
    + intros e. split; discriminate.
    + intros sp' [= <-]. eexists. reflexivity.
  - split.
    + intros e. split; intros [= <-]; reflexivity.
    + discriminate.
Qed.

Lemma extract_power_info_raises_with_parser_witness :
  exists snippet0,
    extract_power_info sample_lib (py "<html/>")
    = Return (info_of_soup sample_lib sample_soup, snippet0).
Proof.
  apply (proj2 (extract_power_info_raises_with_parser sample_lib (py "<html/>"))).
  reflexivity.
Defined.

(** X12.  A page without a single [label] element gives nothing for any
    keyword; the report built from such a page has every field absent,
    [success] false and the missing-field message as error. *)
Theorem page_without_labels (lib : Library) (w : World) (url0 html : str)
  (sp : soup) :
  Forall (fun e => tag_name e <> py "label") (elements sp) ->
  (forall keyword, find_value sp keyword = None)
  /\ (fetch_page w url0 = Return html ->
      BeautifulSoup lib html = Return sp ->
      exists snippet0,
        collect_report lib w url0
        = Return {| url := url0;
                    fetched_at := {| instant := clock w;
                                     tzinfo := timezone_utc8 |};
                    info := PowerInfo_default;
                    snippet := snippet0;
                    success := false;
                    error := Some MISSING_FIELD |}).
Proof.
  intros Hno.
  assert (Hfind : forall keyword, find_value sp keyword = None).
  { intros keyword. unfold find_value. apply find_value_loop_no_label.
    apply find_next_None, Hno. }
  split; [exact Hfind|].
  intros Hfetch Hparse. unfold collect_report. rewrite Hfetch. simpl.
  destruct (extract_power_info_Return lib html sp Hparse) as (snippet0 & ->).
  simpl. exists snippet0. unfold info_of_soup. rewrite !Hfind. reflexivity.
Qed.

Lemma page_without_labels_witness :
  find_value captions_only (py "剩余电量") = None.
Proof.
  apply (proj1 (page_without_labels sample_lib online_world [] [] captions_only
                  ltac:(repeat constructor; discriminate))).
Defined.

(** X13.  What [find_value] returns is the text of a [label] element of
    the page: never the text of a caption or of any other element. *)
Theorem find_value_is_label_text (sp : soup) (keyword v : str) :
  find_value sp keyword = Some v ->
  exists e, e ∈ elements sp /\ tag_name e = py "label" /\ get_text e = v.
Proof. apply find_value_loop_label. Qed.

Lemma find_value_is_label_text_witness :
  exists e, e ∈ elements sample_soup /\ tag_name e = py "label"
            /\ get_text e = py "1,234.50".
Proof.
  apply (find_value_is_label_text sample_soup (py "剩余电量")). reflexivity.
Defined.

(** Label variants keep the same characters. *)
Lemma label_variant_kept (s t : str) :
  label_variant s t -> List.filter kept s = List.filter kept t.
Proof.
  induction 1 as [|c s t _ IH|c s t Hc _ IH|c s t Hc _ IH]; simpl.
  - reflexivity.
  - rewrite IH. reflexivity.
  - rewrite (ignorable_not_kept c Hc). exact IH.
  - rewrite (ignorable_not_kept c Hc). exact IH.
Qed.

(** X14.  Whitespace and colons in the keyword are immaterial to the
    search: two keywords that differ only in them find the same
    value. *)
Theorem find_value_keyword_variant (sp : soup) (k1 k2 : str) :
  label_variant k1 k2 -> find_value sp k1 = find_value sp k2.
Proof.
  intros H. unfold find_value.
  rewrite (normalize_label_kept k1), (normalize_label_kept k2).
  rewrite (label_variant_kept _ _ H). reflexivity.
Qed.

Lemma find_value_keyword_variant_witness :
  find_value sample_soup (py "剩余电量：") = find_value sample_soup (py "剩余电量").
Proof.
  apply find_value_keyword_variant.
  do 4 apply lv_same. apply lv_left; [right; right; reflexivity|]. apply lv_nil.
Defined.

(** X15.  [normalize_label] leaves no whitespace and no colon, ASCII or
    fullwidth, in its result, and normalizing twice is normalizing
    once. *)
Theorem normalize_label_idempotent (s : str) :
  Forall (fun c => isspace c = false /\ c <> ch ":" /\ c <> ch "：")
         (normalize_label s)
  /\ normalize_label (normalize_label s) = normalize_label s.
Proof.
  rewrite !normalize_label_kept. split.
  - apply Forall_forall. intros c Hc. apply list_elem_of_In in Hc.
    apply filter_In in Hc as [_ Hk]. unfold kept in Hk.
    apply andb_prop in Hk as [Hk H3]. apply andb_prop in Hk as [H1 H2].
    apply negb_true_iff in H1, H2, H3. apply N.eqb_neq in H2, H3. auto.
  - induction s as [|c s IH]; simpl; [reflexivity|].
    destruct (kept c) eqn:E; simpl; [rewrite E, IH|]; auto.
Qed.

Lemma startswith_app (a b : str) : startswith (a ++ b) a = true.
Proof.
  induction a as [|c a IH]; simpl.
  - destruct b; reflexivity.
  - rewrite N.eqb_refl. exact IH.
Qed.

(** X16.  [normalize_label] goes through concatenation, so a caption
    that begins with the keyword is a prefix match whatever follows it
    (a colon, a unit, more text). *)
Theorem normalize_label_app (a b : str) :
  normalize_label (a ++ b) = normalize_label a ++ normalize_label b
  /\ startswith (normalize_label (a ++ b)) (normalize_label a) = true.
Proof.
  assert (H : normalize_label (a ++ b) = normalize_label a ++ normalize_label b).
  { rewrite !normalize_label_kept. apply List.filter_app. }
  split; [exact H|]. rewrite H. apply startswith_app.
Qed.

(** X17.  Commas count for nothing in a number, wherever they stand:
    a text with a comma more parses to the same result, and a text of
    commas only is not a number. *)
Theorem parse_numeric_ignores_commas (lib : Library) (a b : str) (n : nat) :
  parse_numeric lib (Some (a ++ py "," ++ b)) = parse_numeric lib (Some (a ++ b))
  /\ parse_numeric lib (Some (repeat (ch ",") n)) = Return None.
Proof.
  unfold parse_numeric. rewrite !replace_delete. split.
  - rewrite !List.filter_app. reflexivity.
  - assert (Hn : List.filter (fun x => negb (x =? ch ","))
                   (repeat (ch ",") n) = []).
    { induction n; simpl; auto. }
    rewrite Hn. vm_compute. reflexivity.
Qed.

(** ** ReportBuilder, Renderer and CLI driver *)

Section DriverFacts.

Context (lib : Library).

Lemma main_report_success w args r :
  main_report lib w args = Return r ->
  success r = is_not_None (remaining_kwh (info r)).
Proof.
  intros H. apply main_report_Return in H as (cfg & _ & _ & H).
  apply report_or_failure_Return in H as [H|(exc & _ & _ & ->)].
  - apply collect_report_Return in H as (_ & _ & Hs & _). exact Hs.
  - reflexivity.
Qed.

Lemma resolve_url_not_empty env cli_url cfg : resolve_url env cli_url cfg <> [].
Proof.
  rewrite resolve_url_tiers.
  assert (Hcomp : forall mid base, url_from_mid mid base <> []).
  { intros mid base. unfold url_from_mid.
    destruct (contains (ch "?") _); intros H;
      apply app_eq_nil in H as [_ H]; discriminate. }
  assert (Hrest : match tier_env_url env with
                  | Some u => u
                  | None =>
                      match tier_config_url env cfg with
                      | Some u => u
                      | None =>
                          match tier_mid env cfg with
                          | Some mid => url_from_mid mid (tier_base env cfg)
                          | None => DEFAULT_URL
                          end
                      end
                  end <> []).
  { pose proof (tier_env_url_not_empty env) as H1.
    pose proof (tier_config_url_not_empty env cfg) as H2.
    destruct (tier_env_url env) as [u|]; [congruence|].
    destruct (tier_config_url env cfg) as [u|]; [congruence|].
    destruct (tier_mid env cfg); [apply Hcomp | discriminate]. }
  destruct cli_url as [[|c u]|]; simpl; [exact Hrest | discriminate | exact Hrest].
Qed.

End DriverFacts.

(** X18.  The process ends with status zero exactly when the run got to
    a report, that report holds the remaining energy, and the sink took
    the rendered report. *)
Theorem exit_zero_iff_remaining_kwh (lib : Library) (w : World) (args : Args) :
  exit_nonzero (script lib w args) = false
  <-> exists r, main_report lib w args = Return r
                /\ remaining_kwh (info r) <> None
                /\ sink_accepts w (rendered_report lib args r) (arg_output args).
Proof.
  unfold script, main.
  destruct (main_report lib w args) as [r|e] eqn:E.
  - pose proof (main_report_success lib w args r E) as Hs.
    rewrite render_rendered.
    destruct (write_output w (rendered_report lib args r) (arg_output args))
      as [evs [[]|exc]] eqn:Ew.
    + pose proof (write_output_Return w _ _ _ Ew) as Hok.
      destruct (success r) eqn:Hsucc; simpl.
      * split; [|reflexivity]. intros _. exists r. split; [reflexivity|].
        split; [|exact Hok]. apply is_not_None_true. symmetry. exact Hs.
      * split; [discriminate|]. intros (r' & [= <-] & Hr & _).
        apply is_not_None_true in Hr. congruence.
    + split.
      * destruct (is_PowerMonitorError exc); discriminate.
      * intros (r' & [= <-] & _ & Hok).
        rewrite (write_output_accepted w _ _ Hok) in Ew. discriminate.
  - destruct (is_PowerMonitorError e); simpl;
      (split; [discriminate | intros (r & Hr & _); discriminate]).
Qed.

(** X19.  When the configuration cannot be loaded, nothing is rendered
    or written: the process prints the error line of a
    [PowerMonitorError] (a document that is not a mapping), prints no
    such line for another exception, and ends on the exception. *)
Theorem config_failure_writes_nothing
  (lib : Library) (w : World) (args : Args) (e : exception) :
  load_config w (arg_config args) = Raise e ->
  script lib w args
  = {| events :=
         (if is_PowerMonitorError e
          then [Stderr (py "Error: " ++ exc_str e ++ [LF])] else [])
         ++ [Traceback e];
       uncaught := Some e |}.
Proof.
  intros H. unfold script, main, main_report. rewrite H. simpl.
  destruct (is_PowerMonitorError e); reflexivity.
Qed.

Lemma config_failure_writes_nothing_witness :
  events (script sample_lib list_config_world default_args)
  = [Stderr (py "Error: config.yaml wrong" ++ [LF]); Traceback config_wrong].
Proof.
  rewrite (config_failure_writes_nothing sample_lib list_config_world
             default_args config_wrong); reflexivity.
Defined.

(** X20.  When the sink takes the rendered report in both, two runs
    that differ only in the format and the destination of the output
    end alike: both on no exception, or both on the same
    [PowerMonitorError]. *)
Theorem output_options_immaterial
  (lib : Library) (w : World) (args args' : Args) :
  arg_url args = arg_url args' -> arg_config args = arg_config args' ->
  (forall r, main_report lib w args = Return r ->
             sink_accepts w (rendered_report lib args r) (arg_output args)
             /\ sink_accepts w (rendered_report lib args' r) (arg_output args')) ->
  uncaught (script lib w args) = uncaught (script lib w args').
Proof.
  intros Hu Hc Hok.
  assert (H : main_report lib w args = main_report lib w args').
  { unfold main_report. rewrite Hu, Hc. reflexivity. }
  unfold script, main. rewrite <- H.
  destruct (main_report lib w args) as [r|e]; simpl.
  - destruct (Hok r eq_refl) as [H1 H2]. rewrite !render_rendered.
    rewrite (write_output_accepted w _ _ H1), (write_output_accepted w _ _ H2).
    destruct (success r); reflexivity.
  - destruct (is_PowerMonitorError e); reflexivity.
Qed.

Lemma output_options_immaterial_witness :
  uncaught (script sample_lib offline_world default_args)
  = uncaught (script sample_lib offline_world file_args).
Proof.
  apply (output_options_immaterial sample_lib offline_world);
    [reflexivity | reflexivity |].
  intros r Hr. split; [reflexivity|]. split; reflexivity.
Defined.

(** X21.  The markdown of a report made up after an exception shows the
    unknown placeholder for both values, and an error line only when the
    exception has a message; it ends with a line feed. *)
Theorem render_markdown_failure
  (lib : Library) (w : World) (url0 : str) (exc : exception) :
  render_markdown lib (failure_report w url0 exc)
  = py "# 宿舍电费情况" ++ [LF]
    ++ py "- 时间: "
    ++ strftime lib {| instant := clock w; tzinfo := timezone_utc |}
                (py "%Y-%m-%d %H:%M:%S %Z") ++ [LF]
    ++ py "- 剩余电量(kWh): 未知" ++ [LF]
    ++ py "- 剩余金额(元): 未知" ++ [LF]
    ++ match exc_str exc with
       | [] => []
       | msg => py "- 错误: " ++ msg ++ [LF]
       end.
Proof.
  unfold render_markdown, failure_report. simpl.
  destruct (exc_str exc) as [|c msg]; simpl;
    repeat (rewrite <- ?app_assoc; simpl); reflexivity.
Qed.

(** X22.  The report of a run, built or made up, names the URL that
    [resolve_url] gave, and that URL is not empty. *)
Theorem report_url_is_resolved
  (lib : Library) (w : World) (args : Args) (r : PowerReport) :
  main_report lib w args = Return r ->
  exists cfg, load_config w (arg_config args) = Return cfg
              /\ url r = resolve_url (os_environ w) (arg_url args) cfg
              /\ url r <> [].
Proof.
  intros H. apply main_report_Return in H as (cfg & Hc & Hu & _).
  exists cfg. split; [exact Hc|]. split; [exact Hu|].
  rewrite Hu. apply resolve_url_not_empty.
Qed.

Lemma report_url_is_resolved_witness :
  exists cfg, load_config offline_world None = Return cfg
              /\ DEFAULT_URL = resolve_url ∅ None cfg
              /\ DEFAULT_URL <> [].
Proof.
  apply (report_url_is_resolved sample_lib offline_world default_args
           (failure_report offline_world DEFAULT_URL connection_error)).
  reflexivity.
Defined.


(** ** The model at work *)

Example decode_ascii : decode "a?" = [97; 63].
Proof. reflexivity. Qed.

Example decode_cjk : decode "表：" = [34920; 65306].
Proof. reflexivity. Qed.

Example strip_both_ends : strip (py "  a b  ") = py "a b".
Proof. reflexivity. Qed.

Example strip_ideographic_space : strip (py "　表号　") = py "表号".
Proof. reflexivity. Qed.

Example split_runs : split (py " ab  c ") = [py "ab"; py "c"].
Proof. reflexivity. Qed.

Example rstrip_question_marks : rstrip_char (ch "?") (py "a?b??") = py "a?b".
Proof. reflexivity. Qed.

Example PLACEHOLDER_match_name :
  PLACEHOLDER_match (py "${METER_ID}") = Some (py "METER_ID").
Proof. reflexivity. Qed.

Example PLACEHOLDER_match_lowercase : PLACEHOLDER_match (py "${meter}") = None.
Proof. reflexivity. Qed.

Example PLACEHOLDER_match_empty_name : PLACEHOLDER_match (py "${}") = None.
Proof. reflexivity. Qed.

Example PLACEHOLDER_match_final_newline :
  PLACEHOLDER_match (py "${A}" ++ [LF]) = Some (py "A").
Proof. reflexivity. Qed.

Example normalize_label_caption :
  normalize_label (py " 剩余 电量： ") = py "剩余电量".
Proof. reflexivity. Qed.

Example py_float_tenth :
  float_or_none sample_lib (py " +1_0.5E-1 ")
  = Some (S754_finite false 4728779608739021 (-52)).
Proof. vm_compute. reflexivity. Qed.

Example py_float_ties_to_even :
  float_or_none sample_lib (py "9007199254740993")
  = Some (S754_finite false 4503599627370496 1).
Proof. vm_compute. reflexivity. Qed.

Example py_float_overflow :
  float_or_none sample_lib (py "1e400") = Some (S754_infinity false).
Proof. vm_compute. reflexivity. Qed.

Example py_float_rejects :
  map (float_or_none sample_lib) [py ""; py "."; py "1e"; py "1__0"; py "0x10"]
  = [None; None; None; None; None].
Proof. vm_compute. reflexivity. Qed.

Example float_1234_5_mantissa : (5429388417957888 = 2469 * 2 ^ 41)%Z.
Proof. reflexivity. Qed.

Example find_value_sample :
  find_value sample_soup (py "剩余电量") = Some (py "1,234.50").
Proof. reflexivity. Qed.
